(** * Language switcher (assets/js/lang-switcher.js)

    A shallow embedding of the site's language switcher and the
    properties its specification states about it.

    Modelling conventions.
    - A JavaScript string is a [string]; the strings of interest are
      ASCII text (language tags, percent-encoded URL paths, attribute
      values). [toLowerCase] and [trim] are JavaScript's on ASCII
      strings: they fold the letters A-Z and strip the six ASCII
      white-space characters. What JavaScript does to characters outside
      ASCII (Unicode case folding, U+00A0 and the other Unicode white
      space) is not modelled.
    - A value that may be [null] or [undefined] is an [option string];
      [truthy] is JavaScript's truthiness on such a value.
    - [localStorage] is a finite map from keys to strings together with
      two switches saying whether reading or writing raises.
    - The script's effects (storage calls, navigation requests, network
      probes) are appended to a trace; the document's own location does
      not change while the script runs, as navigation is only requested.
    - Exceptions are explicit: a computation either completes normally
      with a value and a world, or raises and leaves the world it reached. *)

From Stdlib Require Import Ascii String List Bool Arith Lia.
From stdpp Require Import base decidable option list gmap strings.

Local Open Scope list_scope.

(** ** JavaScript string primitives *)

Module Js.

Definition lower_ascii (c : ascii) : ascii :=
  let n := nat_of_ascii c in
  if (65 <=? n) && (n <=? 90) then ascii_of_nat (n + 32) else c.

(** [String.prototype.toLowerCase], on ASCII strings *)
Fixpoint toLowerCase (s : string) : string :=
  match s with
  | EmptyString => EmptyString
  | String c r => String (lower_ascii c) (toLowerCase r)
  end.

(** [String.prototype.split] with a one-character separator: the pieces
    between the separators, always at least one piece. *)
Fixpoint split (sep : ascii) (s : string) : list string :=
  match s with
  | EmptyString => [EmptyString]
  | String c r =>
      if Ascii.eqb c sep then EmptyString :: split sep r
      else match split sep r with
           | [] => [String c EmptyString]
           | p :: ps => String c p :: ps
           end
  end.

(** [Array.prototype.join] *)
Fixpoint join (sep : string) (l : list string) : string :=
  match l with
  | [] => EmptyString
  | [p] => p
  | p :: ps => p +:+ sep +:+ join sep ps
  end.

(** [Array.prototype.filter(Boolean)] on an array of strings: the empty
    string is the only falsy string. *)
Definition nonempty (s : string) : bool :=
  match s with EmptyString => false | _ => true end.

Definition filterBoolean (l : list string) : list string :=
  List.filter nonempty l.

Fixpoint dropWhile (p : ascii -> bool) (s : string) : string :=
  match s with
  | EmptyString => EmptyString
  | String c r => if p c then dropWhile p r else s
  end.

Fixpoint rev_onto (s acc : string) : string :=
  match s with
  | EmptyString => acc
  | String c r => rev_onto r (String c acc)
  end.

Definition rev (s : string) : string := rev_onto s EmptyString.

Definition dropWhileEnd (p : ascii -> bool) (s : string) : string :=
  rev (dropWhile p (rev s)).

(** [String.prototype.trim], on ASCII strings *)
Definition trim (s : string) : string :=
  dropWhileEnd Ascii.is_space (dropWhile Ascii.is_space s).

Definition is_slash (c : ascii) : bool := Ascii.eqb c "/"%char.

(** [s.replace(/^\/+|\/+$/g, '')]: every leading and every trailing slash
    is removed. *)
Definition stripSlashes (s : string) : string :=
  dropWhileEnd is_slash (dropWhile is_slash s).

(** Truthiness of a string-or-undefined value. *)
Definition truthy (v : option string) : bool :=
  match v with
  | Some s => nonempty s
  | None => false
  end.

(** [a || b] where [b] is a string. *)
Definition or_else (a : option string) (b : string) : string :=
  match a with
  | Some s => if nonempty s then s else b
  | None => b
  end.

(** [a || b] where both may be undefined. *)
Definition or (a b : option string) : option string :=
  if truthy a then a else b.

(** [Array.prototype.includes] on an array of strings. *)
Definition includes (l : list string) (s : string) : bool :=
  bool_decide (s ∈ l).

End Js.

(** ** Configuration *)

Definition DEFAULT_LANG : string := "nl".
Definition SUPPORTED : list string := ["en"; "nl"; "uk"; "ua"].
Definition STORAGE_KEY : string := "site_lang".

(** ** normalizeLang

    [code.split('-')[0]] is the first piece of a split, which always has
    one (lemma [split_not_nil]). *)

Definition normalizeLang (code : option string) : string :=
  match code with
  | None => DEFAULT_LANG
  | Some c =>
      if negb (Js.nonempty c) then DEFAULT_LANG else
      let code := Js.toLowerCase c in
      if String.eqb code "ua" then "uk" else
      let code :=
        if 2 <? String.length code
        then default EmptyString (Js.split "-" code !! 0)
        else code in
      if Js.includes SUPPORTED code
      then (if String.eqb code "ua" then "uk" else code)
      else DEFAULT_LANG
  end.

(** The tag that [normalizeLang] looks up in [SUPPORTED]: the lower-cased
    input, cut at its first hyphen when longer than two characters. *)
Definition baseTag (c : string) : string :=
  let code := Js.toLowerCase c in
  if 2 <? String.length code
  then default EmptyString (Js.split "-" code !! 0)
  else code.

(** ** The page, its environment and the effects of the script *)

(** A flag: an [img] with a [data-lang] attribute inside a
    [.lang-switcher] container, and its class list. *)
Record Flag : Type := mkFlag {
  data_lang : string;
  classList : list string
}.

(** [localStorage]: its items, and whether [getItem] or [setItem] raise
    (storage disabled, quota exhausted, access denied). *)
Record Storage : Type := mkStorage {
  items : gmap string string;
  getItem_throws : bool;
  setItem_throws : bool
}.

(** What a [HEAD] request comes back with. *)
Inductive FetchOutcome : Type :=
  | Response (ok : bool)
  | NetworkError.

Inductive Event : Type :=
  | EvGetItem (key : string)
  | EvSetItem (key value : string)
  | EvReplace (url : string)        (* window.location.replace(url) *)
  | EvAssign (url : string)         (* window.location.href = url *)
  | EvFetchHead (url : string).

Record World : Type := mkWorld {
  pathname : string;                 (* window.location.pathname *)
  search : string;                   (* window.location.search *)
  hash : string;                     (* window.location.hash *)
  nav_language : option string;      (* navigator.language *)
  nav_userLanguage : option string;  (* navigator.userLanguage *)
  localStorage : Storage;
  server : string -> FetchOutcome;   (* the answer to fetch(url, HEAD) *)
  flags : list Flag;                 (* .lang-switcher img[data-lang] *)
  listeners : list nat;              (* flags carrying a click handler *)
  trace : list Event
}.

Definition set_storage (st : Storage) (w : World) : World :=
  mkWorld (pathname w) (search w) (hash w) (nav_language w)
    (nav_userLanguage w) st (server w) (flags w) (listeners w) (trace w).

Definition set_flags (fs : list Flag) (w : World) : World :=
  mkWorld (pathname w) (search w) (hash w) (nav_language w)
    (nav_userLanguage w) (localStorage w) (server w) fs (listeners w)
    (trace w).

Definition set_listeners (ls : list nat) (w : World) : World :=
  mkWorld (pathname w) (search w) (hash w) (nav_language w)
    (nav_userLanguage w) (localStorage w) (server w) (flags w) ls
    (trace w).

Definition log (e : Event) (w : World) : World :=
  mkWorld (pathname w) (search w) (hash w) (nav_language w)
    (nav_userLanguage w) (localStorage w) (server w) (flags w)
    (listeners w) (trace w ++ [e]).

(** *** Computations that may raise *)

Inductive Completion (A : Type) : Type :=
  | Normal (a : A) (w : World)
  | Throw (w : World).
Arguments Normal {A} a w.
Arguments Throw {A} w.

Definition Script (A : Type) : Type := World -> Completion A.

Definition ret {A} (a : A) : Script A := fun w => Normal a w.

Definition bind {A B} (m : Script A) (k : A -> Script B) : Script B :=
  fun w => match m w with
           | Normal a w' => k a w'
           | Throw w' => Throw w'
           end.

Definition raise {A} : Script A := fun w => Throw w.

(** [try { m } catch (e) { h }] *)
Definition try_catch {A} (m h : Script A) : Script A :=
  fun w => match m w with
           | Normal a w' => Normal a w'
           | Throw w' => h w'
           end.

Definition gets {A} (f : World -> A) : Script A := fun w => Normal (f w) w.
Definition modify (f : World -> World) : Script unit :=
  fun w => Normal tt (f w).
Definition emit (e : Event) : Script unit := modify (log e).

Notation "x <~ m ;; k" := (bind m (fun x => k))
  (at level 100, m at next level, right associativity).
Notation "m ;;; k" := (bind m (fun _ => k))
  (at level 100, right associativity).

(** The world a computation ends in, however it ends. *)
Definition final {A} (c : Completion A) : World :=
  match c with
  | Normal _ w => w
  | Throw w => w
  end.

(** *** Browser primitives *)

Definition localStorage_getItem (key : string) : Script (option string) :=
  emit (EvGetItem key) ;;;
  st <~ gets localStorage ;;
  if getItem_throws st then raise else ret (items st !! key).

Definition localStorage_setItem (key value : string) : Script unit :=
  emit (EvSetItem key value) ;;;
  st <~ gets localStorage ;;
  if setItem_throws st then raise
  else modify (set_storage
         (mkStorage (<[key := value]> (items st))
                    (getItem_throws st) (setItem_throws st))).

(** [await fetch(url, { method: 'HEAD' })], giving [resp.ok]. *)
Definition fetchHead (url : string) : Script bool :=
  emit (EvFetchHead url) ;;;
  srv <~ gets server ;;
  match srv url with
  | Response ok => ret ok
  | NetworkError => raise
  end.

Definition location_replace (url : string) : Script unit :=
  emit (EvReplace url).

Definition location_assign (url : string) : Script unit :=
  emit (EvAssign url).

(** [classList.add] and [classList.remove] *)
Definition classList_add (c : string) (l : list string) : list string :=
  if bool_decide (c ∈ l) then l else l ++ [c].

Definition classList_remove (c : string) (l : list string) : list string :=
  List.filter (fun x => negb (String.eqb x c)) l.

(** ** The script's functions *)

Definition pickLangFromNavigator : Script string :=
  l <~ gets nav_language ;;
  u <~ gets nav_userLanguage ;;
  let nav := Js.or_else (Js.or l u) EmptyString in
  ret (normalizeLang (Some nav)).

(** The body of [getCurrentPagePath] on a given [window.location.pathname]. *)
Definition pagePathOf (pathname : string) : string :=
  let path := Js.or_else (Some pathname) "/" in
  if String.eqb path "/" || String.eqb path "/index.html" then "index.html"
  else
    let path := match path with
                | String "/" r => r
                | _ => path
                end in
    let parts := Js.filterBoolean (Js.split "/" path) in
    let first := match parts !! 0 with
                 | Some p => if Js.nonempty p then Js.toLowerCase p
                             else EmptyString
                 | None => EmptyString
                 end in
    let parts := if Js.includes SUPPORTED first || String.eqb first "ua"
                 then tail parts          (* parts.shift() *)
                 else parts in
    let rest := Js.join "/" parts in
    if String.eqb rest EmptyString then "index.html" else rest.

Definition getCurrentPagePath : Script string :=
  p <~ gets pathname ;; ret (pagePathOf p).

Definition buildTargetUrl (lang page : string) : Script string :=
  s <~ gets search ;;
  h <~ gets hash ;;
  let search := Js.or_else (Some s) EmptyString in
  let hash := Js.or_else (Some h) EmptyString in
  let page := if negb (Js.nonempty page)
                 || String.eqb (Js.trim page) EmptyString
              then "index.html" else page in
  ret ("/" +:+ lang +:+ "/" +:+ page +:+ search +:+ hash).

Definition pageExists (url : string) : Script bool :=
  try_catch (fetchHead url) (ret false).

Definition markFlag (lang : string) (img : Flag) : Flag :=
  let code := normalizeLang (Some (data_lang img)) in
  if String.eqb code lang
  then mkFlag (data_lang img) (classList_add "active" (classList img))
  else mkFlag (data_lang img) (classList_remove "active" (classList img)).

Definition markActiveFlag (lang : string) : Script unit :=
  fs <~ gets flags ;;
  if length fs =? 0 then ret tt
  else modify (set_flags (map (markFlag lang) fs)).

(** Lines 95-101 of [initLangSwitcher]: the language the page starts with. *)
Definition initialLang : Script string :=
  saved <~ localStorage_getItem STORAGE_KEY ;;
  let saved := normalizeLang (Some (Js.or_else saved EmptyString)) in
  if negb (Js.nonempty saved) || String.eqb saved DEFAULT_LANG
  then navLang <~ pickLangFromNavigator ;;
       ret (Js.or_else (Some navLang) DEFAULT_LANG)
  else ret saved.

Definition autoRedirectFromRoot (saved : string) : Script unit :=
  p0 <~ gets pathname ;;
  let p := Js.or_else (Some p0) "/" in
  if String.eqb p "/" || String.eqb p "/index.html"
  then target <~ buildTargetUrl saved "index.html" ;;
       location_replace target
  else ret tt.

(** The click handler of the flag at position [i] of the flag list. *)
Definition onFlagClick (i : nat) : Script unit :=
  fs <~ gets flags ;;
  let chosenRaw := data_lang <$> fs !! i in
  let chosen := normalizeLang chosenRaw in
  if negb (Js.nonempty chosen) then ret tt
  else
    try_catch (localStorage_setItem STORAGE_KEY chosen) (ret tt) ;;;
    markActiveFlag chosen ;;;
    page <~ getCurrentPagePath ;;
    target <~ buildTargetUrl chosen page ;;
    exists_ <~ pageExists target ;;
    if (exists_ : bool) then location_assign target
    else fallback <~ buildTargetUrl chosen "index.html" ;;
         location_assign fallback.

Definition markByUrl : Script unit :=
  p0 <~ gets pathname ;;
  let path := Js.toLowerCase (Js.or_else (Some p0) "/") in
  let segments := Js.split "/" (Js.stripSlashes path) in
  let first := Js.or_else (segments !! 0) EmptyString in
  let normFirst := normalizeLang (Some first) in
  if Js.includes SUPPORTED normFirst
  then markActiveFlag normFirst ;;;
       try_catch (localStorage_setItem STORAGE_KEY normFirst) (ret tt)
  else ret tt.

Definition initLangSwitcher : Script unit :=
  fs <~ gets flags ;;
  if length fs =? 0 then ret tt
  else
    saved <~ initialLang ;;
    autoRedirectFromRoot saved ;;;
    markActiveFlag saved ;;;
    modify (fun w => set_listeners (listeners w ++ seq 0 (length fs)) w) ;;;
    markByUrl.

(** A click on the flag at position [i]: every handler attached to that
    flag runs, in the order of attachment. *)
Definition click (i : nat) : Script unit :=
  ls <~ gets listeners ;;
  fold_right (fun j (k : Script unit) =>
                if Nat.eqb j i then onFlagClick i ;;; k else k)
             (ret tt) ls.

(** *** Observations *)

Definition is_navigation (e : Event) : bool :=
  match e with
  | EvReplace _ | EvAssign _ => true
  | _ => false
  end.

Definition navigations (w : World) : list Event :=
  List.filter is_navigation (trace w).

Definition stored (w : World) : option string :=
  items (localStorage w) !! STORAGE_KEY.

Definition has_active (f : Flag) : Prop := "active" ∈ classList f.

Arguments normalizeLang : simpl never.
Arguments pagePathOf : simpl never.
Arguments Js.trim : simpl never.
Arguments Js.stripSlashes : simpl never.

(** *** The worlds the script's steps lead to *)

(** After [markActiveFlag L]: only the flags change. *)
Definition marked (L : string) (w : World) : World :=
  set_flags (map (markFlag L) (flags w)) w.

(** After [try { localStorage.setItem(STORAGE_KEY, L) } catch (err) {}]:
    the call is made, and the item is written unless the call raised. *)
Definition persisted (L : string) (w : World) : World :=
  let w1 := log (EvSetItem STORAGE_KEY L) w in
  let st := localStorage w in
  if setItem_throws st then w1
  else set_storage (mkStorage (<[STORAGE_KEY := L]> (items st))
                              (getItem_throws st) (setItem_throws st)) w1.

(** The URL [buildTargetUrl] returns in a world. *)
Definition urlOf (w : World) (lang page : string) : string :=
  let page := if negb (Js.nonempty page)
                 || String.eqb (Js.trim page) EmptyString
              then "index.html" else page in
  "/" +:+ lang +:+ "/" +:+ page
      +:+ Js.or_else (Some (search w)) EmptyString
      +:+ Js.or_else (Some (hash w)) EmptyString.

(** The leading path segment [markByUrl] looks at. *)
Definition urlFirstSegment (w : World) : string :=
  let path := Js.toLowerCase (Js.or_else (Some (pathname w)) "/") in
  Js.or_else (Js.split "/" (Js.stripSlashes path) !! 0) EmptyString.

(** Whether the probe of a URL confirms the page. *)
Definition confirmed (w : World) (url : string) : bool :=
  match server w url with
  | Response ok => ok
  | NetworkError => false
  end.

(** The language [initialLang] settles on when the stored preference
    can be read. *)
Definition effectiveLang (w : World) : string :=
  let saved := normalizeLang (Some (Js.or_else (stored w) EmptyString)) in
  if String.eqb saved DEFAULT_LANG
  then normalizeLang
         (Some (Js.or_else (Js.or (nav_language w) (nav_userLanguage w))
                           EmptyString))
  else saved.

(** Whether the page is the site root or the root index. *)
Definition atRoot (w : World) : bool :=
  let p := Js.or_else (Some (pathname w)) "/" in
  String.eqb p "/" || String.eqb p "/index.html".

(** After the click handler of a flag whose attribute normalizes to [L]. *)
Definition afterClick (L : string) (w : World) : World :=
  let cand := urlOf w L (pagePathOf (pathname w)) in
  let target := if confirmed w cand then cand
                else urlOf w L "index.html" in
  log (EvAssign target)
    (log (EvFetchHead cand) (marked L (persisted L w))).

(** After [initLangSwitcher] on a page with flags and readable storage. *)
Definition afterInit (w : World) : World :=
  let lang := effectiveLang w in
  let w1 := log (EvGetItem STORAGE_KEY) w in
  let w2 := if atRoot w
            then log (EvReplace (urlOf w lang "index.html")) w1
            else w1 in
  let w3 := marked lang w2 in
  let w4 := set_listeners (listeners w3 ++ seq 0 (length (flags w))) w3 in
  let N := normalizeLang (Some (urlFirstSegment w)) in
  persisted N (marked N w4).

(** ** Page-path resolution, described twice *)

Fixpoint slash_free (s : string) : bool :=
  match s with
  | EmptyString => true
  | String c r => negb (Js.is_slash c) && slash_free r
  end.

(** The specification's description, word for word: the root and the
    root index give the index name; otherwise strip the leading slash,
    split the path into segments, drop the leading segment exactly when
    it is a supported language code (the alias included), rejoin the
    rest, and let an empty remainder be the index name. *)
Definition resolvePagePath_spec (path : string) : string :=
  if String.eqb path "/" || String.eqb path "/index.html" then "index.html"
  else
    let path := match path with
                | String "/" r => r
                | _ => path
                end in
    let segs := Js.split "/" path in
    let rest := match segs with
                | seg :: tl => if bool_decide (seg ∈ SUPPORTED) then tl
                               else segs
                | [] => []
                end in
    let joined := Js.join "/" rest in
    if String.eqb joined EmptyString then "index.html" else joined.

(** The description the script satisfies, on the path's segments: the
    empty segments are discarded, the leading one of the others is
    dropped exactly when its lower-cased form is a supported language
    code (the alias included), the rest is rejoined, and an empty
    remainder is the index name. *)
Definition isLanguageSegment (seg : string) : bool :=
  bool_decide (Js.toLowerCase seg ∈ SUPPORTED).

Definition dropLanguageSegment (segs : list string) : list string :=
  match segs with
  | seg :: rest => if isLanguageSegment seg then rest else segs
  | [] => []
  end.

Definition resolvePagePath_segments (segs : list string) : string :=
  match dropLanguageSegment (List.filter Js.nonempty segs) with
  | [] => "index.html"
  | rest => Js.join "/" rest
  end.

(** ** Sample pages *)

Definition notFound : string -> FetchOutcome := fun _ => Response false.

Definition storageOf (m : gmap string string) : Storage :=
  mkStorage m false false.

Definition blockedStorage : Storage := mkStorage ∅ true true.

Definition threeFlags : list Flag :=
  [mkFlag "en" []; mkFlag "nl" ["active"]; mkFlag "ua" []].

Definition pageAt (path : string) (lang : option string) (st : Storage)
    (fs : list Flag) (ls : list nat) : World :=
  mkWorld path EmptyString EmptyString lang None st notFound fs ls [].

(** The site root, no stored preference, a Ukrainian browser. *)
Definition rootPage : World :=
  pageAt "/" (Some "uk-UA") (storageOf ∅) threeFlags [].

(** A page outside every language folder, with English stored. *)
Definition aboutPage : World :=
  pageAt "/about.html" (Some "en-US") (storageOf {[STORAGE_KEY := "en"]})
    threeFlags [].

(** The site root with the default language stored, an English browser. *)
Definition rootPageDutchStored : World :=
  pageAt "/" (Some "en-US") (storageOf {[STORAGE_KEY := "nl"]})
    threeFlags [].

(** The site root in a browser whose storage is blocked. *)
Definition rootPageBlocked : World :=
  pageAt "/" (Some "uk-UA") blockedStorage threeFlags [].

(** The site root of a document without flags, storage blocked. *)
Definition rootPageNoFlags : World :=
  pageAt "/" (Some "uk-UA") blockedStorage [] [].

(** The Dutch services page after initialization; no English version
    of it exists on the server. *)
Definition servicesPage : World :=
  pageAt "/nl/services.html" (Some "en-US") (storageOf ∅)
    [mkFlag "en" []; mkFlag "nl" ["active"]] [0; 1].

(** The English services page with a flag whose language attribute is
    empty. *)
Definition blankFlagPage : World :=
  pageAt "/en/services.html" (Some "en-US") (storageOf ∅)
    [mkFlag EmptyString []; mkFlag "en" ["active"]] [0; 1].

(** ** Further observations *)

(** Whether a string is made of white space only, the empty string
    included: what [page.trim() === ''] decides. *)
Fixpoint all_space (s : string) : bool :=
  match s with
  | EmptyString => true
  | String c r => Ascii.is_space c && all_space r
  end.

(** The codes [normalizeLang] returns: the supported codes without the
    alias. *)
Definition CANONICAL : list string := ["en"; "nl"; "uk"].

(** The stored preference, when there is one, is a canonical code. *)
Definition storedValid (w : World) : Prop :=
  forall v, stored w = Some v -> v ∈ CANONICAL.

(** The first non-empty segment of a path, as [getCurrentPagePath] sees
    it before lower-casing; empty when there is none. *)
Definition leadingPart (pathname : string) : string :=
  let path := Js.or_else (Some pathname) "/" in
  let path := match path with
              | String "/" r => r
              | _ => path
              end in
  default EmptyString (Js.filterBoolean (Js.split "/" path) !! 0).

(** The non-empty segments [getCurrentPagePath] works on: its [parts]
    array before a language folder is dropped. *)
Definition pathParts (pathname : string) : list string :=
  let path := Js.or_else (Some pathname) "/" in
  let path := match path with
              | String "/" r => r
              | _ => path
              end in
  Js.filterBoolean (Js.split "/" path).

(** Whether every character of a string satisfies a test. *)
Fixpoint allChars (p : ascii -> bool) (s : string) : bool :=
  match s with
  | EmptyString => true
  | String c r => p c && allChars p r
  end.

(** The characters of a string before its first slash. *)
Fixpoint upToSlash (s : string) : string :=
  match s with
  | EmptyString => EmptyString
  | String c r => if Js.is_slash c then EmptyString
                  else String c (upToSlash r)
  end.

(** Whether a character is an ASCII character. *)
Definition is_ascii7 (c : ascii) : bool := nat_of_ascii c <? 128.

(** ** More sample pages *)

(** The site root of a document without flags, storage working. *)
Definition bareRootPage : World :=
  pageAt "/" (Some "uk-UA") (storageOf ∅) [] [].

(** The site root with English stored, a Ukrainian browser. *)
Definition rootPageEnglishStored : World :=
  pageAt "/" (Some "uk-UA") (storageOf {[STORAGE_KEY := "en"]})
    threeFlags [].


(** A page with a query and a fragment. *)
Definition queryPage : World :=
  mkWorld "/nl/about.html" "?x=1" "#top" (Some "nl-NL") None (storageOf ∅)
    notFound threeFlags [0; 1; 2] [].

(** A Ukrainian page reached through the alias folder, with English
    stored and another script's item in the store. *)
Definition aliasPage : World :=
  pageAt "/UA/docs/a.html" (Some "en-US")
    (storageOf {[STORAGE_KEY := "en"; "theme" := "dark"]})
    [mkFlag "en" ["flag"; "active"]; mkFlag "UA" ["flag"]] [].

(** A browser that reports its locale in the legacy field only. *)
Definition legacyBrowserPage : World :=
  mkWorld "/" EmptyString EmptyString None (Some "uk-UA") (storageOf ∅)
    notFound threeFlags [] [].

(** * Properties *)

(** ** Running a script: rewriting equations *)

Lemma bind_gets {A B} (f : World -> A) (k : A -> Script B) w :
  bind (gets f) k w = k (f w) w.
Proof. reflexivity. Qed.

(** ** normalizeLang *)

Section NormalizeLang.

Lemma includes_spec (l : list string) (s : string) :
  Js.includes l s = true <-> s ∈ l.
Proof. unfold Js.includes. apply bool_decide_eq_true. Qed.

Lemma supported_cases (s : string) :
  s ∈ SUPPORTED -> s = "en" \/ s = "nl" \/ s = "uk" \/ s = "ua".
Proof.
  unfold SUPPORTED. rewrite !elem_of_cons, elem_of_nil. tauto.
Qed.

(** The result is a canonical code: the alias is never returned. *)
Lemma normalizeLang_canonical (code : option string) :
  normalizeLang code = "en" \/ normalizeLang code = "nl"
  \/ normalizeLang code = "uk".
Proof.
  destruct code as [c|]; [|right; left; reflexivity].
  unfold normalizeLang.
  destruct (Js.nonempty c); cbn [negb]; [|right; left; reflexivity].
  destruct (String.eqb (Js.toLowerCase c) "ua"); [right; right; reflexivity|].
  set (t := if 2 <? String.length (Js.toLowerCase c) then _ else _).
  destruct (Js.includes SUPPORTED t) eqn:Hin; [|right; left; reflexivity].
  apply includes_spec, supported_cases in Hin.
  destruct Hin as [-> | [-> | [-> | ->]]]; cbn; auto.
Qed.

Lemma normalizeLang_in_supported (code : option string) :
  normalizeLang code ∈ SUPPORTED.
Proof.
  destruct (normalizeLang_canonical code) as [-> | [-> | ->]];
    unfold SUPPORTED; set_solver.
Qed.

Lemma normalizeLang_nonempty (code : option string) :
  Js.nonempty (normalizeLang code) = true.
Proof.
  destruct (normalizeLang_canonical code) as [-> | [-> | ->]]; reflexivity.
Qed.

Lemma normalizeLang_fixed (code : option string) :
  normalizeLang (Some (normalizeLang code)) = normalizeLang code.
Proof.
  destruct (normalizeLang_canonical code) as [-> | [-> | ->]]; reflexivity.
Qed.

Lemma normalizeLang_unrecognized (c : string) :
  baseTag c ∉ SUPPORTED -> normalizeLang (Some c) = DEFAULT_LANG.
Proof.
  intros Hno. unfold normalizeLang.
  destruct (Js.nonempty c); cbn [negb]; [|reflexivity].
  destruct (String.eqb_spec (Js.toLowerCase c) "ua") as [Hua|_].
  - exfalso. apply Hno. unfold baseTag. rewrite Hua. cbn.
    unfold SUPPORTED. set_solver.
  - fold (baseTag c).
    destruct (Js.includes SUPPORTED (baseTag c)) eqn:Hin; [|reflexivity].
    apply includes_spec in Hin. contradiction.
Qed.

End NormalizeLang.

(** C6: for every input, including the empty string and an undefined
    argument, [normalizeLang] returns a member of the supported set; an
    empty, undefined or unrecognized input (one whose lower-cased base tag
    is not a supported code) gives the default language; and normalizing
    a normalized value changes nothing. *)
Theorem normalizeLang_total_supported_idempotent :
  (forall code : option string, normalizeLang code ∈ SUPPORTED)
  /\ normalizeLang None = DEFAULT_LANG
  /\ normalizeLang (Some EmptyString) = DEFAULT_LANG
  /\ (forall c : string,
        baseTag c ∉ SUPPORTED -> normalizeLang (Some c) = DEFAULT_LANG)
  /\ (forall code : option string,
        normalizeLang (Some (normalizeLang code)) = normalizeLang code).
Proof.
  split; [exact normalizeLang_in_supported|].
  split; [reflexivity|]. split; [reflexivity|].
  split; [exact normalizeLang_unrecognized|exact normalizeLang_fixed].
Qed.

Lemma normalizeLang_total_supported_idempotent_witness :
  (baseTag "fr-FR" ∉ SUPPORTED) /\ normalizeLang (Some "fr-FR") = DEFAULT_LANG.
Proof.
  assert (H : baseTag "fr-FR" ∉ SUPPORTED).
  { intros Hin. apply supported_cases in Hin. vm_compute in Hin.
    destruct Hin as [H | [H | [H | H]]]; discriminate H. }
  split; [exact H|].
  exact (proj1 (proj2 (proj2 (proj2
           normalizeLang_total_supported_idempotent))) "fr-FR" H).
Defined.

(** ** markActiveFlag *)

Section Highlighting.

Lemma classList_add_in (c : string) (l : list string) :
  c ∈ classList_add c l.
Proof.
  unfold classList_add. case_bool_decide; [assumption|].
  apply elem_of_app. right. apply list_elem_of_singleton. reflexivity.
Qed.

Lemma classList_remove_out (c : string) (l : list string) :
  c ∉ classList_remove c l.
Proof.
  unfold classList_remove. intros Hin.
  apply list_elem_of_In, filter_In in Hin. destruct Hin as [_ Hne].
  rewrite String.eqb_refl in Hne. discriminate Hne.
Qed.

Lemma classList_add_idem (c : string) (l : list string) :
  classList_add c (classList_add c l) = classList_add c l.
Proof.
  unfold classList_add at 1.
  rewrite bool_decide_eq_true_2 by apply classList_add_in. reflexivity.
Qed.

Lemma classList_remove_idem (c : string) (l : list string) :
  classList_remove c (classList_remove c l) = classList_remove c l.
Proof.
  unfold classList_remove. induction l as [|x l IH]; [reflexivity|].
  cbn. destruct (negb (String.eqb x c)) eqn:E; cbn; rewrite ?E; congruence.
Qed.

Lemma markFlag_data_lang (L : string) (f : Flag) :
  data_lang (markFlag L f) = data_lang f.
Proof. unfold markFlag. destruct (String.eqb _ L); reflexivity. Qed.

Lemma markFlag_active (L : string) (f : Flag) :
  has_active (markFlag L f) <-> normalizeLang (Some (data_lang f)) = L.
Proof.
  unfold markFlag, has_active.
  destruct (String.eqb_spec (normalizeLang (Some (data_lang f))) L)
    as [He|Hne]; cbn.
  - split; [intros _; exact He | intros _; apply classList_add_in].
  - split; [intros Hin; now apply classList_remove_out in Hin
           | intros He; contradiction].
Qed.

Lemma markFlag_idem (L : string) (f : Flag) :
  markFlag L (markFlag L f) = markFlag L f.
Proof.
  unfold markFlag.
  destruct (String.eqb (normalizeLang (Some (data_lang f))) L) eqn:E;
    cbn [data_lang classList]; rewrite E; f_equal;
    [apply classList_add_idem | apply classList_remove_idem].
Qed.

Lemma markActiveFlag_run (L : string) (w : World) :
  markActiveFlag L w = Normal tt (marked L w).
Proof.
  unfold markActiveFlag, marked. rewrite bind_gets.
  destruct (flags w) as [|f fs] eqn:E; cbn.
  - unfold ret. f_equal. destruct w; cbn in *; subst; reflexivity.
  - reflexivity.
Qed.

Lemma marked_data_lang (L : string) (w : World) :
  map data_lang (flags (marked L w)) = map data_lang (flags w).
Proof.
  cbn. rewrite map_map. apply map_ext. intros f. apply markFlag_data_lang.
Qed.

Lemma marked_active (L : string) (w : World) (f : Flag) :
  f ∈ flags (marked L w) ->
  (has_active f <-> normalizeLang (Some (data_lang f)) = L).
Proof.
  cbn. intros Hin. apply list_elem_of_In, in_map_iff in Hin.
  destruct Hin as [g [<- _]]. rewrite markFlag_data_lang.
  apply markFlag_active.
Qed.

Lemma marked_idem (L : string) (w : World) :
  marked L (marked L w) = marked L w.
Proof.
  unfold marked, set_flags. cbn. f_equal.
  rewrite map_map. apply map_ext. intros f. apply markFlag_idem.
Qed.

End Highlighting.

(** C9: for every collection of flags and every language [L],
    [markActiveFlag L] completes, keeps every flag's language attribute,
    and leaves the active marker on exactly the flags whose normalized
    attribute is [L]; a further invocation for any language [L'] again
    completes with exactly the flags of [L'] marked, and an invocation
    for the same [L] changes nothing more. *)
Theorem markActiveFlag_exclusive (w : World) (L : string) :
  exists w1,
    markActiveFlag L w = Normal tt w1
    /\ map data_lang (flags w1) = map data_lang (flags w)
    /\ (forall f, f ∈ flags w1 ->
          (has_active f <-> normalizeLang (Some (data_lang f)) = L))
    /\ markActiveFlag L w1 = Normal tt w1
    /\ (forall L', exists w2,
          markActiveFlag L' w1 = Normal tt w2
          /\ map data_lang (flags w2) = map data_lang (flags w)
          /\ (forall f, f ∈ flags w2 ->
                (has_active f <-> normalizeLang (Some (data_lang f)) = L'))).
Proof.
  exists (marked L w).
  split; [apply markActiveFlag_run|].
  split; [apply marked_data_lang|].
  split; [apply marked_active|].
  split; [rewrite markActiveFlag_run, marked_idem; reflexivity|].
  intros L'. exists (marked L' (marked L w)).
  split; [apply markActiveFlag_run|].
  split; [rewrite !marked_data_lang; reflexivity|].
  apply marked_active.
Qed.

Lemma markActiveFlag_exclusive_witness :
  exists w1,
    markActiveFlag "uk" rootPage = Normal tt w1
    /\ flags w1 = [mkFlag "en" []; mkFlag "nl" []; mkFlag "ua" ["active"]]
    /\ (forall f, f ∈ flags w1 ->
          (has_active f <-> normalizeLang (Some (data_lang f)) = "uk")).
Proof.
  destruct (markActiveFlag_exclusive rootPage "uk")
    as (w1 & Hrun & _ & Hact & _).
  exists w1. split; [exact Hrun|]. split; [|exact Hact].
  rewrite markActiveFlag_run in Hrun. injection Hrun as <-. reflexivity.
Defined.

(** ** getCurrentPagePath *)

Section PagePath.

Lemma append_cons (c : ascii) (s r : string) :
  String c s +:+ r = String c (s +:+ r).
Proof. reflexivity. Qed.

Lemma split_not_nil (sep : ascii) (s : string) : Js.split sep s <> [].
Proof.
  induction s as [|c r IH]; cbn; [discriminate|].
  destruct (Ascii.eqb c sep); [discriminate|].
  destruct (Js.split sep r); discriminate.
Qed.

Lemma split_slash_free (s : string) :
  slash_free s = true -> Js.split "/" s = [s].
Proof.
  induction s as [|c r IH]; cbn; [reflexivity|].
  intros H. apply andb_true_iff in H. destruct H as [Hc Hr].
  unfold Js.is_slash in Hc. apply negb_true_iff in Hc. rewrite Hc.
  rewrite (IH Hr). reflexivity.
Qed.

Lemma split_segment_slash (s r : string) :
  slash_free s = true ->
  Js.split "/" (s +:+ "/" +:+ r) = s :: Js.split "/" r.
Proof.
  induction s as [|c s IH]; intros H.
  - reflexivity.
  - cbn in H. apply andb_true_iff in H. destruct H as [Hc Hs].
    unfold Js.is_slash in Hc. apply negb_true_iff in Hc.
    rewrite append_cons. cbn [Js.split]. rewrite Hc, (IH Hs). reflexivity.
Qed.

Lemma split_join (segs : list string) :
  segs <> [] -> Forall (fun s => slash_free s = true) segs ->
  Js.split "/" (Js.join "/" segs) = segs.
Proof.
  induction segs as [|p ps IH]; [congruence|].
  intros _ Hall. inversion Hall as [|? ? Hp Hps]; subst.
  destruct ps as [|q qs].
  - cbn. now apply split_slash_free.
  - change (Js.join "/" (p :: q :: qs))
      with (p +:+ "/" +:+ Js.join "/" (q :: qs)).
    rewrite split_segment_slash by assumption.
    rewrite IH by (assumption || discriminate). reflexivity.
Qed.

Lemma join_nonempty_head (p : string) (ps : list string) :
  Js.nonempty p = true -> Js.nonempty (Js.join "/" (p :: ps)) = true.
Proof.
  intros Hp. destruct p as [|c p]; [discriminate|].
  destruct ps; reflexivity.
Qed.

Lemma eqb_empty_nonempty (s : string) :
  String.eqb s EmptyString = negb (Js.nonempty s).
Proof. destruct s; reflexivity. Qed.

Lemma includes_or_ua (first : string) :
  Js.includes SUPPORTED first || String.eqb first "ua"
  = Js.includes SUPPORTED first.
Proof.
  destruct (String.eqb_spec first "ua") as [->|_];
    [reflexivity | apply orb_false_r].
Qed.

(** The remainder of [pagePathOf] once the root cases are excluded. *)
Lemma pagePath_tail (parts : list string) :
  Forall (fun s => Js.nonempty s = true) parts ->
  (let first := match parts !! 0 with
                | Some p => if Js.nonempty p then Js.toLowerCase p
                            else EmptyString
                | None => EmptyString
                end in
   let parts' := if Js.includes SUPPORTED first || String.eqb first "ua"
                 then tail parts else parts in
   let rest := Js.join "/" parts' in
   if String.eqb rest EmptyString then "index.html" else rest)
  = match dropLanguageSegment parts with
    | [] => "index.html"
    | rest => Js.join "/" rest
    end.
Proof.
  intros Hall. cbv zeta. rewrite includes_or_ua.
  destruct parts as [|p ps]; [reflexivity|].
  inversion Hall as [|? ? Hp Hps]; subst.
  cbn [lookup list_lookup tail dropLanguageSegment]. rewrite Hp.
  unfold isLanguageSegment, Js.includes.
  destruct (bool_decide (Js.toLowerCase p ∈ SUPPORTED)).
  - destruct ps as [|q qs]; [reflexivity|].
    inversion Hps as [|? ? Hq _]; subst.
    rewrite eqb_empty_nonempty, join_nonempty_head by assumption.
    reflexivity.
  - rewrite eqb_empty_nonempty, join_nonempty_head by assumption.
    reflexivity.
Qed.

(** The script's resolution agrees with the specification's description
    on every path, written as a slash followed by its segments. *)
Lemma pagePathOf_refines (segs : list string) :
  segs <> [] -> Forall (fun s => slash_free s = true) segs ->
  pagePathOf ("/" +:+ Js.join "/" segs) = resolvePagePath_segments segs.
Proof.
  intros Hne Hall. unfold pagePathOf, resolvePagePath_segments.
  change ("/" +:+ Js.join "/" segs) with (String "/" (Js.join "/" segs)).
  cbn [Js.or_else Js.nonempty].
  destruct (String.eqb_spec (String "/" (Js.join "/" segs)) "/") as [E1|_].
  { injection E1 as E1. pose proof (split_join segs Hne Hall) as Hs.
    rewrite E1 in Hs. cbn in Hs. subst segs. reflexivity. }
  destruct (String.eqb_spec (String "/" (Js.join "/" segs)) "/index.html")
    as [E2|_].
  { injection E2 as E2. pose proof (split_join segs Hne Hall) as Hs.
    rewrite E2 in Hs. cbn in Hs. subst segs. reflexivity. }
  cbn [orb]. rewrite split_join by assumption.
  unfold Js.filterBoolean.
  apply pagePath_tail.
  apply Forall_forall. intros x Hx.
  apply list_elem_of_In, filter_In in Hx. tauto.
Qed.

Lemma getCurrentPagePath_run (w : World) :
  getCurrentPagePath w = Normal (pagePathOf (pathname w)) w.
Proof. reflexivity. Qed.

End PagePath.

(** C8, as stated, fails: read word for word, the resolution keeps the
    empty segment after a trailing slash and drops a leading segment
    only when it is literally a supported code, so /en/docs/ would give
    docs/ and /EN/about.html would give EN/about.html; the script
    discards empty segments and lower-cases the leading one, and gives
    docs and about.html. *)
Lemma page_path_differs_from_literal_reading :
  resolvePagePath_spec "/en/docs/" = "docs/"
  /\ pagePathOf "/en/docs/" = "docs"
  /\ resolvePagePath_spec "/EN/about.html" = "EN/about.html"
  /\ pagePathOf "/EN/about.html" = "about.html"
  /\ pagePathOf "/en/docs/" <> resolvePagePath_spec "/en/docs/"
  /\ pagePathOf "/EN/about.html" <> resolvePagePath_spec "/EN/about.html".
Proof. repeat split; (reflexivity || discriminate). Qed.

(** C8, amended: [getCurrentPagePath] returns the resolution of the
    current path; the root and the root index resolve to the index name;
    on every other path, written as a slash followed by its segments,
    the empty segments are discarded, the leading one of the others is
    dropped exactly when its lower-cased form is a supported language
    code (the alias included), the rest is rejoined, and an empty
    remainder is the index name; so /en/about.html and /about.html give
    about.html, /en/ gives index.html, /en/docs/ gives docs and
    /EN/about.html gives about.html. *)
Theorem getCurrentPagePath_resolution :
  (forall w, getCurrentPagePath w = Normal (pagePathOf (pathname w)) w)
  /\ pagePathOf "/" = "index.html"
  /\ pagePathOf "/index.html" = "index.html"
  /\ (forall segs : list string,
        segs <> [] -> Forall (fun s => slash_free s = true) segs ->
        pagePathOf ("/" +:+ Js.join "/" segs) = resolvePagePath_segments segs)
  /\ (forall (seg : string) (rest : list string),
        Forall (fun s => slash_free s = true) (seg :: rest) ->
        Forall (fun s => Js.nonempty s = true) (seg :: rest) ->
        pagePathOf ("/" +:+ Js.join "/" (seg :: rest))
        = if isLanguageSegment seg
          then match rest with
               | [] => "index.html"
               | _ => Js.join "/" rest
               end
          else Js.join "/" (seg :: rest))
  /\ pagePathOf "/en/about.html" = "about.html"
  /\ pagePathOf "/about.html" = "about.html"
  /\ pagePathOf "/en/" = "index.html"
  /\ pagePathOf "/en/docs/" = "docs"
  /\ pagePathOf "/EN/about.html" = "about.html".
Proof.
  split; [exact getCurrentPagePath_run|].
  split; [reflexivity|]. split; [reflexivity|].
  split; [exact pagePathOf_refines|].
  split; [|repeat split; reflexivity].
  intros seg rest Hsf Hne.
  rewrite pagePathOf_refines by (assumption || discriminate).
  unfold resolvePagePath_segments.
  assert (Hf : List.filter Js.nonempty (seg :: rest) = seg :: rest).
  { clear Hsf. induction Hne as [|x l Hx _ IH]; [reflexivity|].
    cbn. rewrite Hx, IH. reflexivity. }
  rewrite Hf. cbn [dropLanguageSegment].
  destruct (isLanguageSegment seg); [destruct rest|]; reflexivity.
Qed.

Lemma getCurrentPagePath_resolution_witness :
  pagePathOf ("/" +:+ Js.join "/" ["UA"; "docs"; "a.html"]) = "docs/a.html"
  /\ pagePathOf ("/" +:+ Js.join "/" ["news"; "a.html"]) = "news/a.html".
Proof.
  split.
  - rewrite (proj1 (proj2 (proj2 (proj2 (proj2
               getCurrentPagePath_resolution)))) "UA" ["docs"; "a.html"]).
    + reflexivity.
    + repeat constructor.
    + repeat constructor.
  - rewrite (proj1 (proj2 (proj2 (proj2
               getCurrentPagePath_resolution))) ["news"; "a.html"]).
    + reflexivity.
    + discriminate.
    + repeat constructor.
Defined.

(** ** Running the script's steps *)

Section Steps.

Lemma buildTargetUrl_run (lang page : string) (w : World) :
  buildTargetUrl lang page w = Normal (urlOf w lang page) w.
Proof. reflexivity. Qed.

Lemma urlOf_index (w : World) (lang : string) :
  urlOf w lang "index.html"
  = "/" +:+ lang +:+ "/index.html" +:+ search w +:+ hash w.
Proof.
  unfold urlOf. change (Js.trim "index.html") with "index.html".
  cbn [Js.nonempty negb orb String.eqb Ascii.eqb Bool.eqb].
  assert (Hor : forall s, Js.or_else (Some s) EmptyString = s)
    by (intros [|]; reflexivity).
  rewrite !Hor.
  change ("/index.html" +:+ search w +:+ hash w)
    with ("/" +:+ "index.html" +:+ search w +:+ hash w).
  reflexivity.
Qed.

Lemma try_setItem_run (L : string) (w : World) :
  try_catch (localStorage_setItem STORAGE_KEY L) (ret tt) w
  = Normal tt (persisted L w).
Proof.
  unfold try_catch, localStorage_setItem, persisted, bind, emit, modify,
    gets, raise, ret.
  cbn. destruct (setItem_throws (localStorage w)); reflexivity.
Qed.

Lemma pageExists_run (url : string) (w : World) :
  pageExists url w = Normal (confirmed w url) (log (EvFetchHead url) w).
Proof.
  unfold pageExists, try_catch, fetchHead, confirmed, bind, emit, modify,
    gets, raise, ret.
  cbn. destruct (server w url) as [ok|]; reflexivity.
Qed.

Lemma pickLangFromNavigator_run (w : World) :
  pickLangFromNavigator w
  = Normal (normalizeLang
              (Some (Js.or_else (Js.or (nav_language w) (nav_userLanguage w))
                                EmptyString))) w.
Proof. reflexivity. Qed.

Lemma or_else_normalized (code : option string) (d : string) :
  Js.or_else (Some (normalizeLang code)) d = normalizeLang code.
Proof. cbn. now rewrite normalizeLang_nonempty. Qed.

Lemma initialLang_run (w : World) :
  getItem_throws (localStorage w) = false ->
  initialLang w
  = Normal (effectiveLang w) (log (EvGetItem STORAGE_KEY) w).
Proof.
  intros Hok.
  unfold initialLang, localStorage_getItem, effectiveLang, stored.
  unfold bind at 1. unfold bind at 1. unfold emit, modify.
  unfold bind at 1. unfold gets at 1. cbn [localStorage log].
  rewrite Hok. unfold ret at 1.
  rewrite normalizeLang_nonempty. cbn [negb orb].
  destruct (String.eqb _ DEFAULT_LANG); [|reflexivity].
  unfold bind. rewrite pickLangFromNavigator_run.
  rewrite or_else_normalized. reflexivity.
Qed.

Lemma initialLang_throws (w : World) :
  getItem_throws (localStorage w) = true ->
  initialLang w = Throw (log (EvGetItem STORAGE_KEY) w).
Proof.
  intros Hbad.
  unfold initialLang, localStorage_getItem.
  unfold bind at 1. unfold bind at 1. unfold emit, modify.
  unfold bind at 1. unfold gets at 1. cbn [localStorage log].
  rewrite Hbad. reflexivity.
Qed.

Lemma autoRedirectFromRoot_run (saved : string) (w : World) :
  autoRedirectFromRoot saved w
  = Normal tt (if atRoot w
               then log (EvReplace (urlOf w saved "index.html")) w
               else w).
Proof.
  unfold autoRedirectFromRoot, atRoot. rewrite bind_gets.
  destruct (_ || _); reflexivity.
Qed.

Lemma markByUrl_run (w : World) :
  markByUrl w
  = Normal tt (let N := normalizeLang (Some (urlFirstSegment w)) in
               persisted N (marked N w)).
Proof.
  unfold markByUrl. rewrite bind_gets. fold (urlFirstSegment w).
  cbv zeta.
  rewrite (proj2 (includes_spec _ _)) by apply normalizeLang_in_supported.
  unfold bind. rewrite markActiveFlag_run. apply try_setItem_run.
Qed.

End Steps.

(** ** The click handler and initialization as a whole *)

Section Runs.

Lemma onFlagClick_run (i : nat) (w : World) :
  onFlagClick i w
  = Normal tt (afterClick (normalizeLang (data_lang <$> flags w !! i)) w).
Proof.
  unfold onFlagClick. rewrite bind_gets. cbv zeta.
  set (L := normalizeLang (data_lang <$> flags w !! i)).
  unfold L at 1. rewrite normalizeLang_nonempty. cbn [negb].
  unfold bind at 1. rewrite try_setItem_run.
  unfold bind at 1. rewrite markActiveFlag_run.
  unfold bind at 1. rewrite getCurrentPagePath_run.
  unfold bind at 1. rewrite buildTargetUrl_run.
  unfold bind at 1. rewrite pageExists_run.
  unfold afterClick, persisted.
  destruct (setItem_throws (localStorage w)); cbn;
    unfold confirmed; cbn;
    destruct (server w _) as [[|]|]; reflexivity.
Qed.

Lemma initLangSwitcher_run (w : World) :
  flags w <> [] -> getItem_throws (localStorage w) = false ->
  initLangSwitcher w = Normal tt (afterInit w).
Proof.
  intros Hfs Hok. unfold initLangSwitcher. rewrite bind_gets.
  destruct (flags w) as [|f fs] eqn:Ef; [congruence|].
  cbn [length Nat.eqb].
  unfold bind at 1. rewrite initialLang_run by assumption.
  unfold bind at 1. rewrite autoRedirectFromRoot_run.
  unfold bind at 1. rewrite markActiveFlag_run.
  unfold bind at 1. unfold modify at 1.
  rewrite markByUrl_run. unfold afterInit. rewrite Ef.
  unfold atRoot. cbn [pathname log].
  destruct (_ || _); reflexivity.
Qed.

Lemma initLangSwitcher_throws (w : World) :
  flags w <> [] -> getItem_throws (localStorage w) = true ->
  initLangSwitcher w = Throw (log (EvGetItem STORAGE_KEY) w).
Proof.
  intros Hfs Hbad. unfold initLangSwitcher. rewrite bind_gets.
  destruct (flags w) as [|f fs] eqn:Ef; [congruence|].
  cbn [length Nat.eqb].
  unfold bind at 1. rewrite initialLang_throws by assumption.
  reflexivity.
Qed.

Lemma persisted_trace (L : string) (w : World) :
  trace (persisted L w) = trace w ++ [EvSetItem STORAGE_KEY L].
Proof.
  unfold persisted. destruct (setItem_throws (localStorage w)); reflexivity.
Qed.

Lemma persisted_flags (L : string) (w : World) :
  flags (persisted L w) = flags w.
Proof.
  unfold persisted. destruct (setItem_throws (localStorage w)); reflexivity.
Qed.

Lemma persisted_listeners (L : string) (w : World) :
  listeners (persisted L w) = listeners w.
Proof.
  unfold persisted. destruct (setItem_throws (localStorage w)); reflexivity.
Qed.

Lemma persisted_stored (L : string) (w : World) :
  setItem_throws (localStorage w) = false ->
  stored (persisted L w) = Some L.
Proof.
  intros Hok. unfold persisted, stored. rewrite Hok. cbn.
  apply lookup_insert_eq.
Qed.

Lemma persisted_stored_fail (L : string) (w : World) :
  setItem_throws (localStorage w) = true ->
  stored (persisted L w) = stored w.
Proof. intros Hbad. unfold persisted, stored. now rewrite Hbad. Qed.

Lemma navigations_app (w : World) (t1 t2 : list Event) :
  trace w = t1 ++ t2 ->
  navigations w = List.filter is_navigation t1
                  ++ List.filter is_navigation t2.
Proof. intros H. unfold navigations. rewrite H. apply List.filter_app. Qed.

(** When the stored value normalizes to a language other than the
    default, it is the effective language whatever the browser says. *)
Lemma effectiveLang_stored (w : World) :
  normalizeLang (Some (Js.or_else (stored w) EmptyString)) <> DEFAULT_LANG ->
  effectiveLang w = normalizeLang (Some (Js.or_else (stored w) EmptyString)).
Proof.
  intros Hne. unfold effectiveLang.
  destruct (String.eqb_spec
              (normalizeLang (Some (Js.or_else (stored w) EmptyString)))
              DEFAULT_LANG); [contradiction|reflexivity].
Qed.

(** Otherwise the browser's locale decides, the default included. *)
Lemma effectiveLang_browser (w : World) :
  normalizeLang (Some (Js.or_else (stored w) EmptyString)) = DEFAULT_LANG ->
  effectiveLang w
  = normalizeLang
      (Some (Js.or_else (Js.or (nav_language w) (nav_userLanguage w))
                        EmptyString)).
Proof. intros He. unfold effectiveLang. rewrite He. reflexivity. Qed.

(** [markByUrl] stores a language on every page, whatever its path. *)
Lemma init_always_persists (w : World) :
  flags w <> [] -> getItem_throws (localStorage w) = false ->
  setItem_throws (localStorage w) = false ->
  stored (final (initLangSwitcher w))
  = Some (normalizeLang (Some (urlFirstSegment w))).
Proof.
  intros Hfs Hget Hset. rewrite initLangSwitcher_run by assumption.
  cbn [final]. unfold afterInit. cbv zeta.
  apply persisted_stored.
  destruct (atRoot w); exact Hset.
Qed.

(** Initialization attaches one handler per flag. *)
Lemma init_attaches_handlers (w : World) :
  flags w <> [] -> getItem_throws (localStorage w) = false ->
  listeners (final (initLangSwitcher w))
  = listeners w ++ seq 0 (length (flags w)).
Proof.
  intros Hfs Hget. rewrite initLangSwitcher_run by assumption.
  cbn [final]. unfold afterInit. cbv zeta.
  rewrite persisted_listeners. destruct (atRoot w); reflexivity.
Qed.

Lemma click_unattached (i : nat) (w : World) :
  i ∉ listeners w -> click i w = Normal tt w.
Proof.
  unfold click. rewrite bind_gets.
  generalize (listeners w). intros ls Hout.
  induction ls as [|j ls IH]; [reflexivity|].
  cbn [fold_right]. destruct (Nat.eqb_spec j i) as [->|_].
  - exfalso. apply Hout. apply list_elem_of_here.
  - apply IH. intros Hin. apply Hout. now apply list_elem_of_further.
Qed.

(** With one handler on the flag, a click runs it once. *)
Lemma click_run (i : nat) (w : World) :
  NoDup (listeners w) -> i ∈ listeners w -> click i w = onFlagClick i w.
Proof.
  unfold click. rewrite bind_gets.
  generalize (listeners w). intros ls Hnd Hin.
  induction Hnd as [|j ls Hj Hnd IH]; [now apply elem_of_nil in Hin|].
  cbn [fold_right]. destruct (Nat.eqb_spec j i) as [->|Hne].
  - unfold bind. rewrite onFlagClick_run.
    assert (Hrest : forall v,
              fold_right (fun j (k : Script unit) =>
                            if Nat.eqb j i then onFlagClick i;;; k else k)
                         (ret tt) ls v = Normal tt v).
    { clear -Hj. induction ls as [|x ls IHls]; intros v; [reflexivity|].
      cbn [fold_right]. destruct (Nat.eqb_spec x i) as [->|_].
      - exfalso. apply Hj. apply list_elem_of_here.
      - apply IHls. intros Hin. apply Hj. now apply list_elem_of_further. }
    apply Hrest.
  - apply IH. apply elem_of_cons in Hin. destruct Hin as [->|Hin];
      [congruence|exact Hin].
Qed.

Lemma afterClick_trace (L : string) (w : World) :
  let cand := urlOf w L (pagePathOf (pathname w)) in
  trace (afterClick L w)
  = trace w
    ++ [EvSetItem STORAGE_KEY L;
        EvFetchHead cand;
        EvAssign (if confirmed w cand then cand
                  else urlOf w L "index.html")].
Proof.
  unfold afterClick. cbv zeta. cbn [trace log marked set_flags].
  rewrite persisted_trace, <- !app_assoc. reflexivity.
Qed.

End Runs.

(** ** Initialization and clicks as a whole *)

(** C10: in a document without flag elements, initialization returns at
    once and changes nothing: no storage call, no redirect, no change of
    the flags, no click handler, and no exception even where storage is
    blocked and the page is the site root. *)
Theorem init_without_flags_is_noop (w : World) :
  flags w = [] -> initLangSwitcher w = Normal tt w.
Proof.
  intros Hfs. unfold initLangSwitcher. rewrite bind_gets, Hfs. reflexivity.
Qed.

Lemma init_without_flags_is_noop_witness :
  flags rootPageNoFlags = []
  /\ atRoot rootPageNoFlags = true
  /\ initLangSwitcher rootPageNoFlags = Normal tt rootPageNoFlags.
Proof.
  split; [reflexivity|]. split; [reflexivity|].
  apply (init_without_flags_is_noop rootPageNoFlags). reflexivity.
Defined.

(** C7, as stated, fails: at the site root of a document without flag
    elements, with working storage, initialization requests no
    navigation at all. *)
Lemma root_without_flags_is_not_redirected :
  pathname bareRootPage = "/"
  /\ getItem_throws (localStorage bareRootPage) = false
  /\ flags bareRootPage = []
  /\ initLangSwitcher bareRootPage = Normal tt bareRootPage
  /\ navigations (final (initLangSwitcher bareRootPage)) = [].
Proof. repeat split; reflexivity. Qed.

(** C7, amended: on a page that has flag elements and whose stored
    preference can be read, whenever the path is the site root or the
    root index, initialization completes and requests exactly one
    navigation, a history-replacing one, to /<lang>/index.html followed
    by the current query and fragment, where <lang> is the normalized
    stored preference when that is not the default language, and the
    language [pickLangFromNavigator] gives when nothing recognizable is
    stored; from the root, with nothing stored and browser locale uk-UA,
    that is /uk/index.html. *)
Theorem root_redirects_when_flags_present (w : World) (lang : string) :
  pathname w = "/" \/ pathname w = "/index.html" ->
  flags w <> [] ->
  getItem_throws (localStorage w) = false ->
  (normalizeLang (stored w) <> DEFAULT_LANG
   /\ lang = normalizeLang (stored w))
  \/ ((forall s, stored w = Some s -> baseTag s ∉ SUPPORTED)
      /\ pickLangFromNavigator w = Normal lang w) ->
  exists w',
    initLangSwitcher w = Normal tt w'
    /\ navigations w'
       = navigations w
         ++ [EvReplace ("/" +:+ lang +:+ "/index.html"
                            +:+ search w +:+ hash w)].
Proof.
  intros Hroot Hfs Hget Hcase.
  assert (Hs : normalizeLang (Some (Js.or_else (stored w) EmptyString))
               = normalizeLang (stored w))
    by (destruct (stored w) as [[|c s]|]; reflexivity).
  assert (Heff : effectiveLang w = lang).
  { destruct Hcase as [[Hne ->] | [Hun Hpick]].
    - rewrite effectiveLang_stored; rewrite Hs; [reflexivity|exact Hne].
    - rewrite effectiveLang_browser.
      + rewrite pickLangFromNavigator_run in Hpick. congruence.
      + rewrite Hs. destruct (stored w) as [s|] eqn:E; [|reflexivity].
        apply normalizeLang_unrecognized. now apply Hun. }
  exists (afterInit w).
  split; [now apply initLangSwitcher_run|].
  assert (Hat : atRoot w = true).
  { unfold atRoot. destruct Hroot as [-> | ->]; reflexivity. }
  rewrite <- urlOf_index, <- Heff.
  rewrite (navigations_app (afterInit w) (trace w)
             [EvGetItem STORAGE_KEY;
              EvReplace (urlOf w (effectiveLang w) "index.html");
              EvSetItem STORAGE_KEY
                (normalizeLang (Some (urlFirstSegment w)))]).
  - reflexivity.
  - unfold afterInit. cbv zeta. rewrite Hat, persisted_trace. cbn.
    rewrite <- !app_assoc. reflexivity.
Qed.

Lemma root_redirects_when_flags_present_witness :
  (exists w',
     initLangSwitcher rootPage = Normal tt w'
     /\ navigations w' = [EvReplace "/uk/index.html"])
  /\ (exists w',
        initLangSwitcher rootPageEnglishStored = Normal tt w'
        /\ navigations w' = [EvReplace "/en/index.html"]).
Proof.
  split.
  - apply (root_redirects_when_flags_present rootPage "uk").
    + left. reflexivity.
    + discriminate.
    + reflexivity.
    + right. split; [|reflexivity].
      intros s Hs. vm_compute in Hs. discriminate Hs.
  - apply (root_redirects_when_flags_present rootPageEnglishStored "en").
    + left. reflexivity.
    + discriminate.
    + reflexivity.
    + left. split; [discriminate|reflexivity].
Defined.

(** C5: a click on a flag whose attribute normalizes to [L] builds the
    candidate URL for [L] and the current page identity, probes it once,
    and then requests one navigation: to the candidate when the probe's
    response is ok, and to the index URL of [L] when the response is not
    ok or the probe raises. *)
Theorem click_navigates_to_candidate_or_index
    (w : World) (i : nat) (f : Flag) :
  flags w !! i = Some f ->
  let L := normalizeLang (Some (data_lang f)) in
  exists page cand fallback w',
    getCurrentPagePath w = Normal page w
    /\ buildTargetUrl L page w = Normal cand w
    /\ buildTargetUrl L "index.html" w = Normal fallback w
    /\ fallback = "/" +:+ L +:+ "/index.html" +:+ search w +:+ hash w
    /\ onFlagClick i w = Normal tt w'
    /\ trace w'
       = trace w
         ++ [EvSetItem STORAGE_KEY L;
             EvFetchHead cand;
             EvAssign (match server w cand with
                       | Response true => cand
                       | Response false | NetworkError => fallback
                       end)]
    /\ navigations w'
       = navigations w
         ++ [EvAssign (match server w cand with
                       | Response true => cand
                       | Response false | NetworkError => fallback
                       end)].
Proof.
  intros Hf L.
  exists (pagePathOf (pathname w)), (urlOf w L (pagePathOf (pathname w))),
         (urlOf w L "index.html"), (afterClick L w).
  split; [reflexivity|]. split; [reflexivity|]. split; [reflexivity|].
  split; [apply urlOf_index|].
  split; [rewrite onFlagClick_run, Hf; reflexivity|].
  assert (Htr : trace (afterClick L w)
                = trace w
                  ++ [EvSetItem STORAGE_KEY L;
                      EvFetchHead (urlOf w L (pagePathOf (pathname w)));
                      EvAssign
                        (match server w
                                 (urlOf w L (pagePathOf (pathname w))) with
                         | Response true =>
                             urlOf w L (pagePathOf (pathname w))
                         | Response false | NetworkError =>
                             urlOf w L "index.html"
                         end)]).
  { unfold afterClick. cbv zeta. cbn [trace log marked set_flags].
    rewrite persisted_trace, <- !app_assoc. cbn [app].
    unfold confirmed. destruct (server w _) as [[|]|]; reflexivity. }
  split; [exact Htr|].
  rewrite (navigations_app _ _ _ Htr). reflexivity.
Qed.

Lemma click_navigates_to_candidate_or_index_witness :
  flags servicesPage !! 0 = Some (mkFlag "en" [])
  /\ exists w',
       onFlagClick 0 servicesPage = Normal tt w'
       /\ trace w' = [EvSetItem "site_lang" "en";
                      EvFetchHead "/en/services.html";
                      EvAssign "/en/index.html"].
Proof.
  split; [reflexivity|].
  destruct (click_navigates_to_candidate_or_index
              servicesPage 0 (mkFlag "en" []) eq_refl)
    as (page & cand & fb & w' & Hp & Hc & Hf & _ & Hrun & Htr & _).
  exists w'. split; [exact Hrun|].
  change (getCurrentPagePath servicesPage)
    with (Normal "services.html" servicesPage) in Hp.
  injection Hp as <-.
  change (buildTargetUrl (normalizeLang (Some (data_lang (mkFlag "en" []))))
            "services.html" servicesPage)
    with (Normal "/en/services.html" servicesPage) in Hc.
  injection Hc as <-.
  change (buildTargetUrl (normalizeLang (Some (data_lang (mkFlag "en" []))))
            "index.html" servicesPage)
    with (Normal "/en/index.html" servicesPage) in Hf.
  injection Hf as <-.
  rewrite Htr. reflexivity.
Defined.

(** C3, as stated, fails: a click on a flag whose language attribute is
    empty does not abort. The attribute normalizes to the default
    language, which is then stored, highlighted and navigated to. *)
Lemma click_on_blank_flag_does_not_abort :
  data_lang <$> flags blankFlagPage !! 0 = Some EmptyString
  /\ stored blankFlagPage = None
  /\ navigations blankFlagPage = []
  /\ exists w',
       onFlagClick 0 blankFlagPage = Normal tt w'
       /\ stored w' = Some "nl"
       /\ flags w' = [mkFlag EmptyString ["active"]; mkFlag "en" []]
       /\ navigations w' = [EvAssign "/nl/index.html"].
Proof.
  split; [reflexivity|]. split; [reflexivity|]. split; [reflexivity|].
  rewrite onFlagClick_run. eexists. split; [reflexivity|].
  repeat split; reflexivity.
Qed.

(** C3, amended: for every flag click the handler normalizes the clicked
    element's language attribute; the result is always a non-empty
    supported code (the default language for an empty attribute), so the
    handler never aborts: it completes, calls the store with that code
    (which is stored unless the call raises), marks exactly the flags of
    that code active, and requests one navigation. *)
Theorem click_never_aborts (w : World) (i : nat) (f : Flag) :
  flags w !! i = Some f ->
  let L := normalizeLang (Some (data_lang f)) in
  Js.nonempty L = true
  /\ L ∈ SUPPORTED
  /\ (data_lang f = EmptyString -> L = DEFAULT_LANG)
  /\ exists w' url,
       onFlagClick i w = Normal tt w'
       /\ EvSetItem STORAGE_KEY L ∈ trace w'
       /\ (setItem_throws (localStorage w) = false -> stored w' = Some L)
       /\ flags w' = map (markFlag L) (flags w)
       /\ navigations w' = navigations w ++ [EvAssign url].
Proof.
  intros Hf L.
  split; [apply normalizeLang_nonempty|].
  split; [apply normalizeLang_in_supported|].
  split; [intros He; unfold L; rewrite He; reflexivity|].
  pose proof (afterClick_trace L w) as Htr. cbv zeta in Htr.
  eexists (afterClick L w), _.
  split; [rewrite onFlagClick_run, Hf; reflexivity|].
  split.
  { rewrite Htr. apply elem_of_app. right. apply list_elem_of_here. }
  split.
  { intros Hok. unfold afterClick, stored. cbv zeta.
    cbn [localStorage log marked set_flags].
    now apply persisted_stored. }
  split.
  { unfold afterClick. cbv zeta. cbn [flags log marked set_flags].
    rewrite persisted_flags. reflexivity. }
  rewrite (navigations_app _ _ _ Htr). reflexivity.
Qed.

Lemma click_never_aborts_witness :
  flags servicesPage !! 1 = Some (mkFlag "nl" ["active"])
  /\ exists w' url,
       onFlagClick 1 servicesPage = Normal tt w'
       /\ stored w' = Some "nl"
       /\ navigations w' = [EvAssign url].
Proof.
  split; [reflexivity|].
  destruct (click_never_aborts servicesPage 1 (mkFlag "nl" ["active"])
              eq_refl)
    as (_ & _ & _ & w' & url & Hrun & _ & Hst & _ & Hnav).
  exists w', url. split; [exact Hrun|].
  split; [exact (Hst eq_refl) | exact Hnav].
Defined.

(** C1, evaluated where it fails: on /about.html, whose leading segment
    is not a supported language code, with English stored, initialization
    overwrites the stored preference with the default language. *)
Theorem init_overwrites_preference_on_plain_page :
  urlFirstSegment aboutPage = "about.html"
  /\ Js.includes SUPPORTED (urlFirstSegment aboutPage) = false
  /\ stored aboutPage = Some "en"
  /\ exists w',
       initLangSwitcher aboutPage = Normal tt w'
       /\ trace w' = [EvGetItem "site_lang"; EvSetItem "site_lang" "nl"]
       /\ stored w' = Some "nl".
Proof.
  split; [reflexivity|]. split; [reflexivity|]. split; [reflexivity|].
  eexists. split; [apply initLangSwitcher_run; [discriminate|reflexivity]|].
  split; reflexivity.
Qed.

(** C2, evaluated where it fails: with the default language stored and
    an English browser, the stored value is set aside and the browser's
    locale decides; from the root the redirect goes to /en/index.html. *)
Theorem stored_default_yields_to_browser :
  stored rootPageDutchStored = Some "nl"
  /\ normalizeLang (stored rootPageDutchStored) = "nl"
  /\ nav_language rootPageDutchStored = Some "en-US"
  /\ (exists w0, initialLang rootPageDutchStored = Normal "en" w0)
  /\ exists w',
       initLangSwitcher rootPageDutchStored = Normal tt w'
       /\ navigations w' = [EvReplace "/en/index.html"].
Proof.
  split; [reflexivity|]. split; [reflexivity|]. split; [reflexivity|].
  split.
  - eexists. rewrite initialLang_run by reflexivity. reflexivity.
  - eexists.
    split; [apply initLangSwitcher_run; [discriminate|reflexivity]|].
    reflexivity.
Qed.

(** C4, evaluated where it fails: with storage blocked, the read of the
    stored preference raises out of initialization at the site root; the
    redirect is not requested, no flag is touched and no click handler is
    attached. *)
Theorem blocked_storage_read_aborts_init :
  getItem_throws (localStorage rootPageBlocked) = true
  /\ atRoot rootPageBlocked = true
  /\ exists w',
       initLangSwitcher rootPageBlocked = Throw w'
       /\ trace w' = [EvGetItem "site_lang"]
       /\ navigations w' = []
       /\ flags w' = flags rootPageBlocked
       /\ listeners w' = [].
Proof.
  split; [reflexivity|]. split; [reflexivity|].
  eexists.
  split; [apply initLangSwitcher_throws; [discriminate|reflexivity]|].
  repeat split; reflexivity.
Qed.

(** A failing write, by contrast, is ignored: initialization and the
    click handler complete with their navigation requested. *)
Lemma failing_write_is_ignored (w : World) (i : nat) :
  setItem_throws (localStorage w) = true ->
  (exists w', onFlagClick i w = Normal tt w'
              /\ stored w' = stored w
              /\ exists url, navigations w' = navigations w ++ [EvAssign url])
  /\ (flags w <> [] -> getItem_throws (localStorage w) = false ->
      exists w', initLangSwitcher w = Normal tt w' /\ stored w' = stored w).
Proof.
  intros Hbad. split.
  - eexists. split; [apply onFlagClick_run|].
    split.
    + unfold afterClick, stored. cbv zeta.
      cbn [localStorage log marked set_flags].
      now apply persisted_stored_fail.
    + eexists. rewrite (navigations_app _ _ _ (afterClick_trace _ w)).
      reflexivity.
  - intros Hfs Hget. eexists.
    split; [now apply initLangSwitcher_run|].
    unfold afterInit. cbv zeta.
    rewrite persisted_stored_fail by (destruct (atRoot w); exact Hbad).
    destruct (atRoot w); reflexivity.
Qed.

(** * Further properties of the script *)

(** ** normalizeLang: letter case, region suffixes, the alias *)

Section NormalizeMore.

Lemma toLowerCase_nonempty (s : string) :
  Js.nonempty (Js.toLowerCase s) = Js.nonempty s.
Proof. destruct s; reflexivity. Qed.

Lemma toLowerCase_app (s r : string) :
  Js.toLowerCase (s +:+ r) = Js.toLowerCase s +:+ Js.toLowerCase r.
Proof.
  induction s as [|c s IH]; [reflexivity|].
  rewrite append_cons. cbn [Js.toLowerCase]. rewrite IH. reflexivity.
Qed.

(** [normalizeLang] sees its argument through its lower-cased form only. *)
Lemma normalizeLang_by_lower (s t : string) :
  Js.toLowerCase s = Js.toLowerCase t ->
  normalizeLang (Some s) = normalizeLang (Some t).
Proof.
  intros H. unfold normalizeLang.
  rewrite <- (toLowerCase_nonempty s), <- (toLowerCase_nonempty t), H.
  reflexivity.
Qed.

(** A string whose lower-cased form is a supported code has two letters. *)
Lemma supported_two_letters (c : string) :
  Js.toLowerCase c ∈ SUPPORTED ->
  exists a b, c = String a (String b EmptyString)
              /\ (String (Js.lower_ascii a)
                    (String (Js.lower_ascii b) EmptyString)) ∈ SUPPORTED.
Proof.
  intros Hin. pose proof (supported_cases _ Hin) as Hc.
  destruct c as [|a [|b [|x r]]]; cbn in Hc.
  - destruct Hc as [H|[H|[H|H]]]; discriminate H.
  - destruct Hc as [H|[H|[H|H]]]; discriminate H.
  - exists a, b. split; [reflexivity|exact Hin].
  - destruct Hc as [H|[H|[H|H]]]; discriminate H.
Qed.

Lemma normalizeLang_region (c r : string) :
  Js.toLowerCase c ∈ SUPPORTED ->
  normalizeLang (Some (c +:+ "-" +:+ r)) = normalizeLang (Some c).
Proof.
  intros Hin. destruct (supported_two_letters c Hin) as (a & b & -> & Hab).
  apply supported_cases in Hab.
  unfold normalizeLang.
  change (String a (String b EmptyString) +:+ "-" +:+ r)
    with (String a (String b (String "-" r))).
  cbn [Js.nonempty negb Js.toLowerCase].
  destruct Hab as [H|[H|[H|H]]]; injection H as -> ->; reflexivity.
Qed.

Lemma normalizeLang_in_canonical (code : option string) :
  normalizeLang code ∈ CANONICAL.
Proof.
  destruct (normalizeLang_canonical code) as [-> | [-> | ->]];
    unfold CANONICAL; set_solver.
Qed.

End NormalizeMore.

(** X1: whatever its input, [normalizeLang] returns one of en, nl and
    uk; the alias ua, although listed as supported, is never returned. *)
Theorem normalizeLang_returns_canonical (code : option string) :
  normalizeLang code ∈ CANONICAL /\ normalizeLang code <> "ua".
Proof.
  destruct (normalizeLang_canonical code) as [-> | [-> | ->]];
    (split; [unfold CANONICAL; set_solver | discriminate]).
Qed.

(** X2: [normalizeLang] ignores letter case: two inputs with the same
    lower-cased form normalize to the same code. *)
Theorem normalizeLang_case_insensitive (s t : string) :
  Js.toLowerCase s = Js.toLowerCase t ->
  normalizeLang (Some s) = normalizeLang (Some t).
Proof. exact (normalizeLang_by_lower s t). Qed.

Lemma normalizeLang_case_insensitive_witness :
  Js.toLowerCase "EN-us" = Js.toLowerCase "en-US"
  /\ normalizeLang (Some "EN-us") = normalizeLang (Some "en-US").
Proof.
  split; [reflexivity|].
  apply (normalizeLang_case_insensitive "EN-us" "en-US"). reflexivity.
Defined.

(** X3: a supported code, in any letter case, followed by a hyphen and
    any region suffix normalizes like the code alone; with the alias,
    ua-<region> gives uk. *)
Theorem normalizeLang_region_suffix (c r : string) :
  Js.toLowerCase c ∈ SUPPORTED ->
  normalizeLang (Some (c +:+ "-" +:+ r)) = normalizeLang (Some c)
  /\ normalizeLang (Some ("ua" +:+ "-" +:+ r)) = "uk".
Proof.
  intros Hin. split; [now apply normalizeLang_region|].
  rewrite normalizeLang_region; [reflexivity|].
  apply (bool_decide_eq_true_1 (Js.toLowerCase "ua" ∈ SUPPORTED)).
  reflexivity.
Qed.

Lemma normalizeLang_region_suffix_witness :
  Js.toLowerCase "UK" ∈ SUPPORTED
  /\ normalizeLang (Some ("UK" +:+ "-" +:+ "UA")) = normalizeLang (Some "UK").
Proof.
  assert (H : Js.toLowerCase "UK" ∈ SUPPORTED)
    by (apply (bool_decide_eq_true_1 (Js.toLowerCase "UK" ∈ SUPPORTED));
        reflexivity).
  split; [exact H|].
  exact (proj1 (normalizeLang_region_suffix "UK" "UA" H)).
Defined.

(** ** buildTargetUrl and the page identity *)

Section TargetUrl.

Lemma append_empty_r (s : string) : s +:+ EmptyString = s.
Proof.
  induction s as [|c s IH]; [reflexivity|].
  rewrite append_cons, IH. reflexivity.
Qed.

Lemma all_space_rev_onto (s acc : string) :
  all_space (Js.rev_onto s acc) = all_space s && all_space acc.
Proof.
  revert acc. induction s as [|c s IH]; intros acc; [reflexivity|].
  cbn [Js.rev_onto all_space]. rewrite IH. cbn [all_space].
  destruct (Ascii.is_space c), (all_space s), (all_space acc); reflexivity.
Qed.

Lemma dropWhile_all_space (s : string) :
  all_space s = true -> Js.dropWhile Ascii.is_space s = EmptyString.
Proof.
  induction s as [|c s IH]; [reflexivity|].
  cbn [all_space Js.dropWhile]. intros H.
  apply andb_true_iff in H. destruct H as [Hc Hs]. rewrite Hc. auto.
Qed.

Lemma dropWhile_not_all_space (s : string) :
  all_space s = false -> all_space (Js.dropWhile Ascii.is_space s) = false.
Proof.
  induction s as [|c s IH]; [discriminate|].
  cbn [all_space Js.dropWhile].
  destruct (Ascii.is_space c) eqn:Hc; cbn [andb].
  - exact IH.
  - intros _. cbn [all_space]. rewrite Hc. reflexivity.
Qed.

Lemma trim_all_space (s : string) :
  all_space s = true -> Js.trim s = EmptyString.
Proof.
  intros H. unfold Js.trim. rewrite dropWhile_all_space by assumption.
  reflexivity.
Qed.

Lemma trim_not_all_space (s : string) :
  all_space s = false -> Js.trim s <> EmptyString.
Proof.
  intros H Ht. unfold Js.trim, Js.dropWhileEnd, Js.rev in Ht.
  assert (Hsp : all_space (Js.rev_onto
                  (Js.dropWhile Ascii.is_space
                     (Js.rev_onto (Js.dropWhile Ascii.is_space s)
                        EmptyString)) EmptyString) = true)
    by (rewrite Ht; reflexivity).
  rewrite all_space_rev_onto in Hsp. cbn [all_space] in Hsp.
  rewrite andb_true_r in Hsp.
  rewrite dropWhile_not_all_space in Hsp; [discriminate|].
  rewrite all_space_rev_onto. cbn [all_space]. rewrite andb_true_r.
  now apply dropWhile_not_all_space.
Qed.

Lemma or_else_some (s : string) : Js.or_else (Some s) EmptyString = s.
Proof. destruct s; reflexivity. Qed.

Lemma urlOf_blank (w : World) (lang page : string) :
  all_space page = true -> urlOf w lang page = urlOf w lang "index.html".
Proof.
  intros H. unfold urlOf. rewrite (trim_all_space page H).
  cbn [String.eqb]. rewrite orb_true_r. reflexivity.
Qed.

Lemma urlOf_page (w : World) (lang page : string) :
  all_space page = false ->
  urlOf w lang page
  = "/" +:+ lang +:+ "/" +:+ page +:+ search w +:+ hash w.
Proof.
  intros H. unfold urlOf. rewrite !or_else_some.
  destruct page as [|c page]; [discriminate|].
  cbn [Js.nonempty negb orb].
  destruct (String.eqb_spec (Js.trim (String c page)) EmptyString) as [E|_].
  - now apply trim_not_all_space in E.
  - reflexivity.
Qed.

(** The pieces of a split contain no separator. *)
Lemma split_pieces_slash_free (s : string) :
  Forall (fun p => slash_free p = true) (Js.split "/" s).
Proof.
  induction s as [|c s IH]; cbn [Js.split].
  - repeat constructor.
  - destruct (Ascii.eqb c "/") eqn:Hc.
    + constructor; [reflexivity|exact IH].
    + destruct (Js.split "/" s) as [|p ps].
      * constructor; [|constructor]. cbn. unfold Js.is_slash.
        rewrite Hc. reflexivity.
      * inversion IH as [|? ? Hp Hps]; subst. constructor; [|exact Hps].
        cbn. unfold Js.is_slash. rewrite Hc, Hp. reflexivity.
Qed.

Lemma Forall_tail {A} (P : A -> Prop) (l : list A) :
  Forall P l -> Forall P (tail l).
Proof. intros H. destruct H; [constructor|assumption]. Qed.

Lemma Forall_filter_keep {A} (P : A -> Prop) (f : A -> bool) (l : list A) :
  Forall P l -> Forall P (List.filter f l).
Proof.
  induction 1 as [|x l Hx _ IH]; cbn; [constructor|].
  destruct (f x); [constructor|]; assumption.
Qed.

Lemma Forall_filter_true {A} (f : A -> bool) (l : list A) :
  Forall (fun x => f x = true) (List.filter f l).
Proof.
  induction l as [|x l IH]; cbn; [constructor|].
  destruct (f x) eqn:E; [constructor|]; assumption.
Qed.

(** The page identity is the index name or the remaining segments,
    none of them empty, joined by slashes. *)
Lemma pagePathOf_segments (p : string) :
  exists segs,
    segs <> []
    /\ Forall (fun s => slash_free s = true) segs
    /\ Forall (fun s => Js.nonempty s = true) segs
    /\ pagePathOf p = Js.join "/" segs.
Proof.
  assert (Hidx : exists segs,
            segs <> []
            /\ Forall (fun s => slash_free s = true) segs
            /\ Forall (fun s => Js.nonempty s = true) segs
            /\ "index.html" = Js.join "/" segs).
  { exists ["index.html"]. split; [discriminate|].
    split; [|split]; repeat constructor. }
  unfold pagePathOf.
  destruct (_ || _); [exact Hidx|].
  set (path := match Js.or_else (Some p) "/" with
               | String "/" r => r
               | _ => Js.or_else (Some p) "/"
               end).
  set (parts := Js.filterBoolean (Js.split "/" path)).
  assert (Hsf : Forall (fun s => slash_free s = true) parts)
    by (apply Forall_filter_keep, split_pieces_slash_free).
  assert (Hne : Forall (fun s => Js.nonempty s = true) parts)
    by apply Forall_filter_true.
  set (first := match parts !! 0 with
                | Some q => if Js.nonempty q then Js.toLowerCase q
                            else EmptyString
                | None => EmptyString
                end).
  set (parts' := if Js.includes SUPPORTED first || String.eqb first "ua"
                 then tail parts else parts).
  assert (Hsf' : Forall (fun s => slash_free s = true) parts')
    by (unfold parts'; destruct (_ || _); [apply Forall_tail|]; assumption).
  assert (Hne' : Forall (fun s => Js.nonempty s = true) parts')
    by (unfold parts'; destruct (_ || _); [apply Forall_tail|]; assumption).
  cbv zeta. fold parts'.
  destruct parts' as [|q qs] eqn:Eq; [exact Hidx|].
  inversion Hne' as [|? ? Hq _]; subst.
  rewrite eqb_empty_nonempty, join_nonempty_head by assumption.
  cbn [negb]. exists (q :: qs).
  split; [discriminate|]. split; [assumption|]. split; [assumption|].
  reflexivity.
Qed.

Lemma filter_all_true {A} (f : A -> bool) (l : list A) :
  Forall (fun x => f x = true) l -> List.filter f l = l.
Proof.
  induction 1 as [|x l Hx _ IH]; [reflexivity|].
  cbn. rewrite Hx, IH. reflexivity.
Qed.

Lemma supported_is_language_segment (L : string) :
  L ∈ SUPPORTED ->
  isLanguageSegment L = true /\ slash_free L = true /\ Js.nonempty L = true.
Proof.
  intros Hin. apply supported_cases in Hin.
  destruct Hin as [-> | [-> | [-> | ->]]]; repeat split; reflexivity.
Qed.

End TargetUrl.

(** X4: [buildTargetUrl] reads the location and changes nothing; a page
    that is empty or made of ASCII white space only is replaced by
    index.html, and a page of ASCII characters that is not white space
    only gives /<lang>/<page> followed by the current query and
    fragment. Pages with characters outside ASCII are left out. *)
Theorem buildTargetUrl_shape (w : World) (lang page : string) :
  (all_space page = true ->
   buildTargetUrl lang page w
   = Normal ("/" +:+ lang +:+ "/index.html" +:+ search w +:+ hash w) w)
  /\ (allChars is_ascii7 page = true ->
      all_space page = false ->
      buildTargetUrl lang page w
      = Normal ("/" +:+ lang +:+ "/" +:+ page +:+ search w +:+ hash w) w).
Proof.
  rewrite buildTargetUrl_run. split.
  - intros H. rewrite urlOf_blank, urlOf_index by assumption. reflexivity.
  - intros _ H. rewrite urlOf_page by assumption. reflexivity.
Qed.

Lemma buildTargetUrl_shape_witness :
  buildTargetUrl "nl" "about.html" queryPage
  = Normal "/nl/about.html?x=1#top" queryPage
  /\ buildTargetUrl "nl" "  " queryPage
     = Normal "/nl/index.html?x=1#top" queryPage.
Proof.
  split.
  - rewrite (proj2 (buildTargetUrl_shape queryPage "nl" "about.html"));
      reflexivity.
  - rewrite (proj1 (buildTargetUrl_shape queryPage "nl" "  "));
      reflexivity.
Defined.

(** X5: the page identity [getCurrentPagePath] returns is a well-formed
    relative path: it is never empty, and cut at its slashes it has no
    empty segment, so it neither starts nor ends with a slash nor
    contains a double slash. *)
Theorem getCurrentPagePath_well_formed (w : World) :
  exists page,
    getCurrentPagePath w = Normal page w
    /\ page <> EmptyString
    /\ Forall (fun s => Js.nonempty s = true) (Js.split "/" page).
Proof.
  exists (pagePathOf (pathname w)). split; [reflexivity|].
  destruct (pagePathOf_segments (pathname w))
    as (segs & Hnil & Hsf & Hne & ->).
  split.
  - destruct segs as [|q qs]; [congruence|].
    inversion Hne as [|? ? Hq _]; subst.
    intros E. pose proof (join_nonempty_head q qs Hq) as Hj.
    rewrite E in Hj. discriminate Hj.
  - rewrite split_join by assumption. exact Hne.
Qed.

(** X6: switching language keeps the page. With no query and no
    fragment, and a page identity that is not white space only, the
    candidate URL built for a supported language and the current page
    identity resolves, as a path, to that same page identity. *)
Theorem language_switch_keeps_page (w : World) (L : string) :
  L ∈ SUPPORTED ->
  search w = EmptyString -> hash w = EmptyString ->
  all_space (pagePathOf (pathname w)) = false ->
  exists page cand,
    getCurrentPagePath w = Normal page w
    /\ buildTargetUrl L page w = Normal cand w
    /\ pagePathOf cand = page.
Proof.
  intros HL Hs Hh Hblank.
  exists (pagePathOf (pathname w)),
         ("/" +:+ L +:+ "/" +:+ pagePathOf (pathname w)).
  split; [reflexivity|].
  split.
  { rewrite buildTargetUrl_run, urlOf_page by assumption.
    rewrite Hs, Hh, !append_empty_r. reflexivity. }
  destruct (pagePathOf_segments (pathname w))
    as (segs & Hnil & Hsf & Hne & ->).
  destruct (supported_is_language_segment L HL) as (Hlang & HLsf & HLne).
  destruct segs as [|q qs]; [congruence|].
  change (L +:+ "/" +:+ Js.join "/" (q :: qs))
    with (Js.join "/" (L :: q :: qs)).
  rewrite pagePathOf_refines;
    [|discriminate|constructor; assumption].
  unfold resolvePagePath_segments.
  assert (Hf : List.filter Js.nonempty (L :: q :: qs) = L :: q :: qs).
  { apply filter_all_true. constructor; assumption. }
  rewrite Hf. cbn [dropLanguageSegment]. rewrite Hlang. reflexivity.
Qed.

Lemma language_switch_keeps_page_witness :
  exists page cand,
    getCurrentPagePath aliasPage = Normal page aliasPage
    /\ buildTargetUrl "en" page aliasPage = Normal cand aliasPage
    /\ pagePathOf cand = page.
Proof.
  apply (language_switch_keeps_page aliasPage "en").
  - apply (bool_decide_eq_true_1 ("en" ∈ SUPPORTED)). reflexivity.
  - reflexivity.
  - reflexivity.
  - reflexivity.
Defined.

(** ** pickLangFromNavigator *)

(** X7: [pickLangFromNavigator] changes nothing and returns a canonical
    code: the normalized [navigator.language] when that field is a
    non-empty string, whatever the legacy field holds, and otherwise the
    normalized [navigator.userLanguage], which is the default language
    when that is missing or empty too. *)
Theorem pickLangFromNavigator_fallback (w : World) :
  exists L,
    pickLangFromNavigator w = Normal L w
    /\ L ∈ CANONICAL
    /\ (Js.truthy (nav_language w) = true ->
        L = normalizeLang (nav_language w))
    /\ (Js.truthy (nav_language w) = false ->
        L = normalizeLang (nav_userLanguage w))
    /\ (Js.truthy (nav_language w) = false ->
        Js.truthy (nav_userLanguage w) = false -> L = DEFAULT_LANG).
Proof.
  eexists. split; [apply pickLangFromNavigator_run|].
  split; [apply normalizeLang_in_canonical|].
  unfold Js.or.
  destruct (nav_language w) as [[|c l]|], (nav_userLanguage w) as [[|d u]|];
    cbn; repeat split; intros; try reflexivity; discriminate.
Qed.

Lemma pickLangFromNavigator_fallback_witness :
  Js.truthy (nav_language legacyBrowserPage) = false
  /\ pickLangFromNavigator legacyBrowserPage = Normal "uk" legacyBrowserPage.
Proof.
  split; [reflexivity|].
  destruct (pickLangFromNavigator_fallback legacyBrowserPage)
    as (L & Hrun & _ & _ & Hlegacy & _).
  rewrite Hrun, (Hlegacy eq_refl). reflexivity.
Defined.

(** ** Initialization and clicks: what they touch *)

Section Frames.

Lemma final_init (w : World) :
  final (initLangSwitcher w)
  = match flags w with
    | [] => w
    | _ :: _ => if getItem_throws (localStorage w)
                then log (EvGetItem STORAGE_KEY) w
                else afterInit w
    end.
Proof.
  destruct (flags w) as [|f fs] eqn:Ef.
  - unfold initLangSwitcher. rewrite bind_gets, Ef. reflexivity.
  - destruct (getItem_throws (localStorage w)) eqn:Eg.
    + rewrite initLangSwitcher_throws by (congruence || assumption).
      reflexivity.
    + rewrite initLangSwitcher_run by (congruence || assumption).
      reflexivity.
Qed.

Lemma final_click (i : nat) (w : World) :
  final (onFlagClick i w)
  = afterClick (normalizeLang (data_lang <$> flags w !! i)) w.
Proof. rewrite onFlagClick_run. reflexivity. Qed.

Lemma afterInit_storage (w : World) :
  localStorage (afterInit w)
  = localStorage
      (persisted (normalizeLang (Some (urlFirstSegment w))) w).
Proof.
  unfold afterInit, persisted. cbv zeta.
  destruct (atRoot w); cbn [localStorage marked set_flags set_listeners log];
    destruct (setItem_throws (localStorage w)); reflexivity.
Qed.

Lemma afterClick_storage (L : string) (w : World) :
  localStorage (afterClick L w) = localStorage (persisted L w).
Proof. reflexivity. Qed.

Lemma persisted_lookup_other (L : string) (w : World) (k : string) :
  k <> STORAGE_KEY ->
  items (localStorage (persisted L w)) !! k = items (localStorage w) !! k.
Proof.
  intros Hk. unfold persisted.
  destruct (setItem_throws (localStorage w)); [reflexivity|].
  cbn. apply lookup_insert_ne. congruence.
Qed.

Lemma persisted_stored_cases (L : string) (w : World) :
  stored (persisted L w) = Some L \/ stored (persisted L w) = stored w.
Proof.
  destruct (setItem_throws (localStorage w)) eqn:E.
  - right. now apply persisted_stored_fail.
  - left. now apply persisted_stored.
Qed.

Lemma stored_by_storage (w1 w2 : World) :
  localStorage w1 = localStorage w2 -> stored w1 = stored w2.
Proof. intros H. unfold stored. now rewrite H. Qed.

(** The stored preference after initialization and after a click:
    a normalized code, or what it was. *)
Lemma stored_after_init (w : World) :
  (exists code, stored (final (initLangSwitcher w))
                = Some (normalizeLang code))
  \/ stored (final (initLangSwitcher w)) = stored w.
Proof.
  rewrite final_init.
  destruct (flags w) as [|f fs]; [right; reflexivity|].
  destruct (getItem_throws (localStorage w)); [right; reflexivity|].
  rewrite (stored_by_storage _ _ (afterInit_storage w)).
  destruct (persisted_stored_cases
              (normalizeLang (Some (urlFirstSegment w))) w) as [H|H].
  - left. eexists. exact H.
  - right. exact H.
Qed.

Lemma stored_after_click (i : nat) (w : World) :
  (exists code, stored (final (onFlagClick i w))
                = Some (normalizeLang code))
  \/ stored (final (onFlagClick i w)) = stored w.
Proof.
  rewrite final_click.
  rewrite (stored_by_storage _ _ (afterClick_storage _ w)).
  destruct (persisted_stored_cases
              (normalizeLang (data_lang <$> flags w !! i)) w) as [H|H].
  - left. eexists. exact H.
  - right. exact H.
Qed.

End Frames.

(** X8: initialization and the click handler write no storage key other
    than the preference key, and never remove the preference: every
    other item is as it was, and a stored preference is still stored
    afterwards, however the run ends. *)
Theorem only_preference_key_written (w : World) (i : nat) :
  (forall k : string,
     k <> STORAGE_KEY ->
     items (localStorage (final (initLangSwitcher w))) !! k
     = items (localStorage w) !! k
     /\ items (localStorage (final (onFlagClick i w))) !! k
        = items (localStorage w) !! k)
  /\ (is_Some (stored w) ->
      is_Some (stored (final (initLangSwitcher w)))
      /\ is_Some (stored (final (onFlagClick i w)))).
Proof.
  split.
  - intros k Hk. split.
    + rewrite final_init.
      destruct (flags w) as [|f fs]; [reflexivity|].
      destruct (getItem_throws (localStorage w)); [reflexivity|].
      rewrite afterInit_storage. now apply persisted_lookup_other.
    + rewrite final_click, afterClick_storage.
      now apply persisted_lookup_other.
  - intros Hs. split.
    + destruct (stored_after_init w) as [[code H]|H]; rewrite H; eauto.
    + destruct (stored_after_click i w) as [[code H]|H]; rewrite H; eauto.
Qed.

Lemma only_preference_key_written_witness :
  "theme" <> STORAGE_KEY
  /\ items (localStorage (final (initLangSwitcher aliasPage))) !! "theme"
     = Some "dark"
  /\ is_Some (stored (final (onFlagClick 0 aliasPage))).
Proof.
  assert (Hk : "theme" <> STORAGE_KEY) by discriminate.
  split; [exact Hk|].
  destruct (only_preference_key_written aliasPage 0) as [Hother Hkeep].
  split.
  - rewrite (proj1 (Hother "theme" Hk)). reflexivity.
  - apply Hkeep. exists "en". reflexivity.
Defined.

(** X9: the stored preference stays a canonical code: if it is absent
    or one of en, nl and uk before initialization or a click, it is so
    afterwards, however the run ends. *)
Theorem stored_preference_stays_canonical (w : World) (i : nat) :
  storedValid w ->
  storedValid (final (initLangSwitcher w))
  /\ storedValid (final (onFlagClick i w)).
Proof.
  intros Hv. split; intros v Hst.
  - destruct (stored_after_init w) as [[code H]|H]; rewrite H in Hst.
    + injection Hst as <-. apply normalizeLang_in_canonical.
    + now apply Hv.
  - destruct (stored_after_click i w) as [[code H]|H]; rewrite H in Hst.
    + injection Hst as <-. apply normalizeLang_in_canonical.
    + now apply Hv.
Qed.

Lemma stored_preference_stays_canonical_witness :
  storedValid aliasPage
  /\ storedValid (final (initLangSwitcher aliasPage))
  /\ stored (final (initLangSwitcher aliasPage)) = Some "uk".
Proof.
  assert (Hv : storedValid aliasPage).
  { intros v Hst. change (stored aliasPage) with (Some "en") in Hst.
    injection Hst as <-.
    apply (bool_decide_eq_true_1 ("en" ∈ CANONICAL)). reflexivity. }
  split; [exact Hv|].
  split; [exact (proj1 (stored_preference_stays_canonical aliasPage 0 Hv))|].
  reflexivity.
Defined.

(** ** Initialization away from the root and on a language page *)

Section InitMore.

Lemma atRoot_false (w : World) :
  pathname w <> EmptyString -> pathname w <> "/" ->
  pathname w <> "/index.html" -> atRoot w = false.
Proof.
  intros H0 H1 H2. unfold atRoot.
  destruct (pathname w) as [|c p] eqn:E; [congruence|].
  cbn [Js.or_else Js.nonempty].
  apply orb_false_iff. split; now apply String.eqb_neq.
Qed.

Lemma afterInit_trace_off_root (w : World) :
  atRoot w = false ->
  trace (afterInit w)
  = trace w ++ [EvGetItem STORAGE_KEY;
                EvSetItem STORAGE_KEY
                  (normalizeLang (Some (urlFirstSegment w)))].
Proof.
  intros Hat. unfold afterInit. cbv zeta. rewrite Hat, persisted_trace.
  cbn. rewrite <- !app_assoc. reflexivity.
Qed.

Lemma afterInit_flags (w : World) :
  flags (afterInit w)
  = flags (marked (normalizeLang (Some (urlFirstSegment w)))
             (marked (effectiveLang w) w)).
Proof.
  unfold afterInit. cbv zeta. rewrite persisted_flags.
  destruct (atRoot w); reflexivity.
Qed.

Lemma afterInit_listeners (w : World) :
  listeners (afterInit w) = listeners w ++ seq 0 (length (flags w)).
Proof.
  unfold afterInit. cbv zeta. rewrite persisted_listeners.
  destruct (atRoot w); reflexivity.
Qed.

Lemma afterInit_stored (w : World) :
  setItem_throws (localStorage w) = false ->
  stored (afterInit w) = Some (normalizeLang (Some (urlFirstSegment w))).
Proof.
  intros Hok. rewrite (stored_by_storage _ _ (afterInit_storage w)).
  now apply persisted_stored.
Qed.

Lemma markFlag_other_class (L c : string) (f : Flag) :
  c <> "active" -> (c ∈ classList (markFlag L f) <-> c ∈ classList f).
Proof.
  intros Hc. unfold markFlag.
  destruct (String.eqb _ L); cbn [classList].
  - unfold classList_add. case_bool_decide; [reflexivity|].
    rewrite elem_of_app, list_elem_of_singleton. tauto.
  - unfold classList_remove. rewrite !list_elem_of_In, filter_In.
    split; [tauto|]. intros Hin. split; [exact Hin|].
    apply negb_true_iff, String.eqb_neq. exact Hc.
Qed.

End InitMore.

(** X10: on a page with flags and readable storage whose path is not
    the root, the root index or empty, initialization completes and
    requests no navigation and no probe: it reads the preference once
    and stores once, the normalized leading segment of the URL. *)
Theorem init_off_root_stays (w : World) :
  flags w <> [] ->
  getItem_throws (localStorage w) = false ->
  pathname w <> EmptyString -> pathname w <> "/" ->
  pathname w <> "/index.html" ->
  exists w',
    initLangSwitcher w = Normal tt w'
    /\ navigations w' = navigations w
    /\ trace w'
       = trace w ++ [EvGetItem STORAGE_KEY;
                     EvSetItem STORAGE_KEY
                       (normalizeLang (Some (urlFirstSegment w)))].
Proof.
  intros Hfs Hget H0 H1 H2. exists (afterInit w).
  split; [now apply initLangSwitcher_run|].
  pose proof (afterInit_trace_off_root w (atRoot_false w H0 H1 H2)) as Htr.
  split; [|exact Htr].
  rewrite (navigations_app _ _ _ Htr). cbn. apply app_nil_r.
Qed.

Lemma init_off_root_stays_witness :
  exists w',
    initLangSwitcher aliasPage = Normal tt w'
    /\ navigations w' = []
    /\ trace w' = [EvGetItem "site_lang"; EvSetItem "site_lang" "uk"].
Proof.
  destruct (init_off_root_stays aliasPage)
    as (w' & Hrun & Hnav & Htr); try discriminate; try reflexivity.
  exists w'. split; [exact Hrun|]. split; [exact Hnav|exact Htr].
Defined.

(** X11: on a page with flags and readable storage whose leading URL
    segment, lower-cased, is a supported code, initialization ends with
    exactly the flags of that language active (uk for the alias ua),
    whatever the stored preference and the browser locale, and stores
    that language unless the write raises. *)
Theorem init_on_language_page (w : World) :
  flags w <> [] ->
  getItem_throws (localStorage w) = false ->
  urlFirstSegment w ∈ SUPPORTED ->
  let N := if String.eqb (urlFirstSegment w) "ua" then "uk"
           else urlFirstSegment w in
  exists w',
    initLangSwitcher w = Normal tt w'
    /\ map data_lang (flags w') = map data_lang (flags w)
    /\ (forall f, f ∈ flags w' ->
          (has_active f <-> normalizeLang (Some (data_lang f)) = N))
    /\ (setItem_throws (localStorage w) = false -> stored w' = Some N).
Proof.
  intros Hfs Hget Hseg N.
  assert (HN : normalizeLang (Some (urlFirstSegment w)) = N).
  { unfold N. apply supported_cases in Hseg.
    destruct Hseg as [-> | [-> | [-> | ->]]]; reflexivity. }
  exists (afterInit w).
  split; [now apply initLangSwitcher_run|].
  rewrite afterInit_flags, HN.
  split; [rewrite !marked_data_lang; reflexivity|].
  split; [apply marked_active|].
  intros Hset. rewrite afterInit_stored, HN by assumption. reflexivity.
Qed.

Lemma init_on_language_page_witness :
  urlFirstSegment aliasPage = "ua"
  /\ exists w',
       initLangSwitcher aliasPage = Normal tt w'
       /\ flags w' = [mkFlag "en" ["flag"]; mkFlag "UA" ["flag"; "active"]]
       /\ stored w' = Some "uk".
Proof.
  split; [reflexivity|].
  destruct (init_on_language_page aliasPage)
    as (w' & Hrun & _ & _ & Hst).
  - discriminate.
  - reflexivity.
  - apply (bool_decide_eq_true_1 (urlFirstSegment aliasPage ∈ SUPPORTED)).
    reflexivity.
  - exists w'. split; [exact Hrun|]. split; [|exact (Hst eq_refl)].
    rewrite initLangSwitcher_run in Hrun by (discriminate || reflexivity).
    injection Hrun as <-. reflexivity.
Defined.

(** X12: initialization of a page with flags and readable storage, on
    which no handler is attached yet, attaches one click handler to each
    flag and to nothing else; a click on a position without a flag then
    does nothing. *)
Theorem init_attaches_one_handler_per_flag (w : World) :
  flags w <> [] ->
  getItem_throws (localStorage w) = false ->
  listeners w = [] ->
  exists w',
    initLangSwitcher w = Normal tt w'
    /\ length (flags w') = length (flags w)
    /\ NoDup (listeners w')
    /\ (forall i, i ∈ listeners w' <-> i < length (flags w'))
    /\ (forall i, length (flags w') <= i -> click i w' = Normal tt w').
Proof.
  intros Hfs Hget Hls. exists (afterInit w).
  split; [now apply initLangSwitcher_run|].
  assert (Hlen : length (flags (afterInit w)) = length (flags w)).
  { rewrite afterInit_flags. cbn. rewrite !length_map. reflexivity. }
  assert (Hl : listeners (afterInit w) = seq 0 (length (flags w)))
    by (rewrite afterInit_listeners, Hls; reflexivity).
  split; [exact Hlen|].
  split; [rewrite Hl; apply NoDup_seq|].
  split.
  - intros i. rewrite Hl, Hlen, elem_of_seq. lia.
  - intros i Hi. apply click_unattached.
    rewrite Hl, elem_of_seq. lia.
Qed.

Lemma init_attaches_one_handler_per_flag_witness :
  exists w',
    initLangSwitcher aliasPage = Normal tt w'
    /\ listeners w' = [0; 1]
    /\ click 2 w' = Normal tt w'.
Proof.
  destruct (init_attaches_one_handler_per_flag aliasPage)
    as (w' & Hrun & Hlen & _ & _ & Hout).
  - discriminate.
  - reflexivity.
  - reflexivity.
  - exists w'. split; [exact Hrun|].
    split.
    + rewrite initLangSwitcher_run in Hrun by (discriminate || reflexivity).
      injection Hrun as <-. reflexivity.
    + apply Hout. rewrite Hlen. cbn. lia.
Defined.

(** X13: [markActiveFlag] touches the active class and nothing else:
    the flags keep their number, order, language attribute and every
    other class, and storage, handlers and the trace are as before. *)
Theorem markActiveFlag_frame (w : World) (L : string) :
  exists w',
    markActiveFlag L w = Normal tt w'
    /\ length (flags w') = length (flags w)
    /\ (forall i f, flags w !! i = Some f ->
          exists f', flags w' !! i = Some f'
                     /\ data_lang f' = data_lang f
                     /\ forall c, c <> "active" ->
                          (c ∈ classList f' <-> c ∈ classList f))
    /\ localStorage w' = localStorage w
    /\ listeners w' = listeners w
    /\ trace w' = trace w.
Proof.
  exists (marked L w). split; [apply markActiveFlag_run|].
  split; [cbn; apply length_map|].
  split; [|repeat split].
  intros i f Hf. exists (markFlag L f).
  split; [cbn; rewrite list_lookup_fmap, Hf; reflexivity|].
  split; [apply markFlag_data_lang|].
  intros c Hc. now apply markFlag_other_class.
Qed.

Lemma markActiveFlag_frame_witness :
  exists w',
    markActiveFlag "uk" aliasPage = Normal tt w'
    /\ flags w' = [mkFlag "en" ["flag"]; mkFlag "UA" ["flag"; "active"]].
Proof.
  destruct (markActiveFlag_frame aliasPage "uk") as (w' & Hrun & _).
  exists w'. split; [exact Hrun|].
  rewrite markActiveFlag_run in Hrun. injection Hrun as <-. reflexivity.
Defined.

(** ** The click handler: what is stored and where it navigates *)

Section ClickMore.

Lemma persisted_getItem_throws (L : string) (w : World) :
  getItem_throws (localStorage (persisted L w))
  = getItem_throws (localStorage w).
Proof.
  unfold persisted. destruct (setItem_throws (localStorage w)); reflexivity.
Qed.

Lemma effectiveLang_of_stored (w : World) (code : option string) :
  stored w = Some (normalizeLang code) ->
  normalizeLang code <> DEFAULT_LANG ->
  effectiveLang w = normalizeLang code.
Proof.
  intros Hst Hne.
  assert (Hsaved : normalizeLang (Some (Js.or_else (stored w) EmptyString))
                   = normalizeLang code).
  { rewrite Hst, or_else_normalized. apply normalizeLang_fixed. }
  rewrite effectiveLang_stored; rewrite Hsaved; [reflexivity|exact Hne].
Qed.

(** The page a click navigates to: the current page identity when the
    probe confirms it and it is not blank, the index otherwise. *)
Lemma afterClick_target (L : string) (w : World) :
  exists page,
    all_space page = false
    /\ (if confirmed w (urlOf w L (pagePathOf (pathname w)))
        then urlOf w L (pagePathOf (pathname w))
        else urlOf w L "index.html")
       = "/" +:+ L +:+ "/" +:+ page +:+ search w +:+ hash w.
Proof.
  destruct (confirmed w _).
  - destruct (all_space (pagePathOf (pathname w))) eqn:Hb.
    + exists "index.html". split; [reflexivity|].
      rewrite urlOf_blank by assumption. now apply urlOf_page.
    + exists (pagePathOf (pathname w)). split; [assumption|].
      now apply urlOf_page.
  - exists "index.html". split; [reflexivity|]. now apply urlOf_page.
Qed.

End ClickMore.

(** X14: a click on a flag of a language other than the default, in a
    browser whose storage works, makes that language the one the next
    page load starts with: on any later page that finds the storage as
    the click left it, the initial language is the clicked one, whatever
    that page's browser locale. *)
Theorem clicked_language_survives_reload (w : World) (i : nat) (f : Flag) :
  flags w !! i = Some f ->
  setItem_throws (localStorage w) = false ->
  getItem_throws (localStorage w) = false ->
  normalizeLang (Some (data_lang f)) <> DEFAULT_LANG ->
  exists w',
    onFlagClick i w = Normal tt w'
    /\ forall w2,
         localStorage w2 = localStorage w' ->
         exists w3,
           initialLang w2 = Normal (normalizeLang (Some (data_lang f))) w3.
Proof.
  intros Hf Hset Hget Hne.
  set (L := normalizeLang (Some (data_lang f))) in *.
  exists (afterClick L w).
  split; [rewrite onFlagClick_run, Hf; reflexivity|].
  intros w2 Hsame. rewrite afterClick_storage in Hsame.
  eexists. rewrite initialLang_run.
  - f_equal. apply effectiveLang_of_stored; [|exact Hne].
    rewrite (stored_by_storage _ _ Hsame). now apply persisted_stored.
  - rewrite Hsame, persisted_getItem_throws. exact Hget.
Qed.

Lemma clicked_language_survives_reload_witness :
  exists w',
    onFlagClick 0 servicesPage = Normal tt w'
    /\ exists w3,
         initialLang
           (mkWorld "/" EmptyString EmptyString (Some "uk-UA") None
              (localStorage w') notFound threeFlags [] [])
         = Normal "en" w3.
Proof.
  destruct (clicked_language_survives_reload
              servicesPage 0 (mkFlag "en" []))
    as (w' & Hrun & Hnext); try reflexivity; try discriminate.
  exists w'. split; [exact Hrun|].
  apply (Hnext (mkWorld "/" EmptyString EmptyString (Some "uk-UA") None
                  (localStorage w') notFound threeFlags [] [])).
  reflexivity.
Defined.

(** X15: every click, whatever the flag's attribute and the probe's
    answer, completes and requests exactly one navigation, a normal
    one, to /<L>/<page> followed by the current query and fragment,
    where L is one of en, nl and uk and the page is not blank. *)
Theorem click_target_url_shape (w : World) (i : nat) :
  exists L page w',
    onFlagClick i w = Normal tt w'
    /\ L ∈ CANONICAL
    /\ all_space page = false
    /\ navigations w'
       = navigations w
         ++ [EvAssign ("/" +:+ L +:+ "/" +:+ page
                           +:+ search w +:+ hash w)].
Proof.
  set (L := normalizeLang (data_lang <$> flags w !! i)).
  destruct (afterClick_target L w) as (page & Hblank & Hurl).
  exists L, page, (afterClick L w).
  split; [apply onFlagClick_run|].
  split; [apply normalizeLang_in_canonical|].
  split; [exact Hblank|].
  rewrite (navigations_app _ _ _ (afterClick_trace L w)).
  cbn. rewrite Hurl. reflexivity.
Qed.

(** X16: [pageExists] never raises. It issues one HEAD request for the
    URL and answers true exactly when the response is ok; a response
    that is not ok and a request that fails both give false. Nothing
    else changes. *)
Theorem pageExists_never_raises (w : World) (url : string) :
  exists b w',
    pageExists url w = Normal b w'
    /\ (b = true <-> server w url = Response true)
    /\ trace w' = trace w ++ [EvFetchHead url]
    /\ localStorage w' = localStorage w
    /\ flags w' = flags w
    /\ navigations w' = navigations w.
Proof.
  exists (confirmed w url), (log (EvFetchHead url) w).
  split; [apply pageExists_run|].
  split.
  - unfold confirmed. destruct (server w url) as [[|]|];
      split; intros H; (reflexivity || discriminate H).
  - repeat split. unfold navigations. cbn [trace log].
    rewrite List.filter_app. cbn. apply app_nil_r.
Qed.

(** ** The leading segment, as markByUrl and getCurrentPagePath see it *)

Section LeadingSegment.

Lemma rev_onto_app (s acc : string) :
  Js.rev_onto s acc = Js.rev_onto s EmptyString +:+ acc.
Proof.
  revert acc. induction s as [|c s IH]; intros acc; [reflexivity|].
  cbn [Js.rev_onto]. rewrite (IH (String c acc)), (IH (String c EmptyString)).
  generalize (Js.rev_onto s EmptyString). intros x.
  induction x as [|d x IHx]; [reflexivity|].
  rewrite !append_cons, IHx. reflexivity.
Qed.

Lemma rev_cons (c : ascii) (s : string) :
  Js.rev (String c s) = Js.rev s +:+ String c EmptyString.
Proof. unfold Js.rev. cbn [Js.rev_onto]. apply rev_onto_app. Qed.

Lemma rev_snoc (x : string) (c : ascii) :
  Js.rev (x +:+ String c EmptyString) = String c (Js.rev x).
Proof.
  induction x as [|d x IH]; [reflexivity|].
  rewrite append_cons, !rev_cons, IH. reflexivity.
Qed.

Lemma allChars_app (p : ascii -> bool) (a b : string) :
  allChars p (a +:+ b) = allChars p a && allChars p b.
Proof.
  induction a as [|c a IH]; [reflexivity|].
  rewrite append_cons. cbn [allChars]. rewrite IH. apply andb_assoc.
Qed.

Lemma allChars_rev (p : ascii -> bool) (s : string) :
  allChars p (Js.rev s) = allChars p s.
Proof.
  induction s as [|c s IH]; [reflexivity|].
  rewrite rev_cons, allChars_app, IH. cbn [allChars].
  rewrite andb_true_r. apply andb_comm.
Qed.

Lemma dropWhile_all (p : ascii -> bool) (s : string) :
  allChars p s = true -> Js.dropWhile p s = EmptyString.
Proof.
  induction s as [|c s IH]; [reflexivity|].
  cbn [allChars Js.dropWhile]. intros H.
  apply andb_true_iff in H. destruct H as [Hc Hs]. rewrite Hc. auto.
Qed.

Lemma dropWhile_app (p : ascii -> bool) (a b : string) :
  Js.dropWhile p (a +:+ b)
  = if allChars p a then Js.dropWhile p b else Js.dropWhile p a +:+ b.
Proof.
  induction a as [|c a IH]; [reflexivity|].
  rewrite append_cons. cbn [Js.dropWhile allChars].
  destruct (p c); cbn [andb]; [exact IH|reflexivity].
Qed.

(** Dropping from the end, one character at a time. *)
Lemma dropWhileEnd_cons (p : ascii -> bool) (c : ascii) (r : string) :
  Js.dropWhileEnd p (String c r)
  = if allChars p (String c r) then EmptyString
    else String c (Js.dropWhileEnd p r).
Proof.
  unfold Js.dropWhileEnd. rewrite rev_cons, dropWhile_app, allChars_rev.
  cbn [allChars Js.dropWhile].
  destruct (allChars p r) eqn:Hr.
  - rewrite (dropWhile_all p (Js.rev r)) by (now rewrite allChars_rev).
    destruct (p c); reflexivity.
  - rewrite andb_false_r. apply rev_snoc.
Qed.

Lemma upToSlash_dropWhileEnd (t : string) :
  upToSlash (Js.dropWhileEnd Js.is_slash t) = upToSlash t.
Proof.
  induction t as [|c r IH]; [reflexivity|].
  rewrite dropWhileEnd_cons. cbn [allChars upToSlash].
  destruct (Js.is_slash c) eqn:Hc; cbn [andb].
  - destruct (allChars Js.is_slash r); [reflexivity|].
    cbn [upToSlash]. rewrite Hc. reflexivity.
  - cbn [upToSlash]. rewrite Hc, IH. reflexivity.
Qed.

Lemma split_head (s : string) :
  default EmptyString (Js.split "/" s !! 0) = upToSlash s.
Proof.
  induction s as [|c r IH]; [reflexivity|].
  cbn [Js.split upToSlash]. unfold Js.is_slash.
  destruct (Ascii.eqb c "/"); [reflexivity|].
  destruct (Js.split "/" r) as [|q qs]; cbn in *; rewrite <- IH; reflexivity.
Qed.

Lemma split_first_nonempty (s : string) :
  default EmptyString (Js.filterBoolean (Js.split "/" s) !! 0)
  = upToSlash (Js.dropWhile Js.is_slash s).
Proof.
  induction s as [|c r IH]; [reflexivity|].
  pose proof (split_head r) as Hh.
  cbn [Js.split Js.dropWhile]. unfold Js.is_slash at 1.
  destruct (Ascii.eqb c "/") eqn:Hc.
  - exact IH.
  - cbn [upToSlash]. unfold Js.is_slash. rewrite Hc.
    destruct (Js.split "/" r) as [|q qs]; cbn in *; rewrite <- Hh;
      reflexivity.
Qed.

Lemma is_slash_lower (c : ascii) :
  Js.is_slash (Js.lower_ascii c) = Js.is_slash c.
Proof. destruct c as [[] [] [] [] [] [] [] []]; reflexivity. Qed.

Lemma dropWhile_slash_lower (s : string) :
  Js.dropWhile Js.is_slash (Js.toLowerCase s)
  = Js.toLowerCase (Js.dropWhile Js.is_slash s).
Proof.
  induction s as [|c r IH]; [reflexivity|].
  cbn [Js.toLowerCase Js.dropWhile]. rewrite is_slash_lower.
  destruct (Js.is_slash c); [exact IH|reflexivity].
Qed.

Lemma upToSlash_lower (s : string) :
  upToSlash (Js.toLowerCase s) = Js.toLowerCase (upToSlash s).
Proof.
  induction s as [|c r IH]; [reflexivity|].
  cbn [Js.toLowerCase upToSlash]. rewrite is_slash_lower.
  destruct (Js.is_slash c); [reflexivity|].
  cbn [Js.toLowerCase]. rewrite IH. reflexivity.
Qed.

Lemma strip_one_slash (path : string) :
  Js.dropWhile Js.is_slash
    (match path with
     | String "/" r => r
     | _ => path
     end)
  = Js.dropWhile Js.is_slash path.
Proof.
  destruct path as [|c r]; [reflexivity|].
  destruct c as [[] [] [] [] [] [] [] []]; reflexivity.
Qed.

Lemma or_else_default (o : option string) :
  Js.or_else o EmptyString = default EmptyString o.
Proof. destruct o as [[|c s]|]; reflexivity. Qed.

Lemma urlFirstSegment_leadingPart (w : World) :
  urlFirstSegment w = Js.toLowerCase (leadingPart (pathname w)).
Proof.
  unfold urlFirstSegment, leadingPart, Js.stripSlashes. cbv zeta.
  rewrite or_else_default, split_head, upToSlash_dropWhileEnd.
  rewrite split_first_nonempty, strip_one_slash.
  rewrite dropWhile_slash_lower, upToSlash_lower. reflexivity.
Qed.

(** Away from the root, the page identity in terms of the parts. *)
Lemma pagePathOf_parts (w : World) :
  atRoot w = false ->
  pagePathOf (pathname w)
  = match dropLanguageSegment (pathParts (pathname w)) with
    | [] => "index.html"
    | rest => Js.join "/" rest
    end.
Proof.
  intros Hroot. unfold atRoot in Hroot. cbv zeta in Hroot.
  unfold pagePathOf. rewrite Hroot.
  apply pagePath_tail. apply Forall_filter_true.
Qed.

End LeadingSegment.

(** X17: [markByUrl] and [getCurrentPagePath] look at the same leading
    segment of every path, although one strips slashes by pattern and
    the other discards empty segments: the segment [markByUrl]
    normalizes is the lower-cased first non-empty segment of the path.
    So whenever [getCurrentPagePath], away from the root, drops the
    leading segment as a language folder, [markByUrl] marks and stores
    the language of that folder (uk for the alias). The converse does
    not hold: [markByUrl] settles on a language on every path. *)
Theorem language_folder_agreement (w : World) :
  urlFirstSegment w
  = Js.toLowerCase (default EmptyString (pathParts (pathname w) !! 0))
  /\ (atRoot w = false ->
      forall seg rest,
        pathParts (pathname w) = seg :: rest ->
        isLanguageSegment seg = true ->
        let N := if String.eqb (Js.toLowerCase seg) "ua" then "uk"
                 else Js.toLowerCase seg in
        pagePathOf (pathname w)
        = match rest with
          | [] => "index.html"
          | _ => Js.join "/" rest
          end
        /\ exists w',
             markByUrl w = Normal tt w'
             /\ trace w' = trace w ++ [EvSetItem STORAGE_KEY N]
             /\ (forall f, f ∈ flags w' ->
                   (has_active f
                    <-> normalizeLang (Some (data_lang f)) = N))).
Proof.
  split; [apply urlFirstSegment_leadingPart|].
  intros Hroot seg rest Hparts Hlang N.
  split.
  - rewrite pagePathOf_parts by assumption. rewrite Hparts.
    cbn [dropLanguageSegment]. rewrite Hlang. destruct rest; reflexivity.
  - assert (HN : normalizeLang (Some (urlFirstSegment w)) = N).
    { rewrite urlFirstSegment_leadingPart.
      change (leadingPart (pathname w))
        with (default EmptyString (pathParts (pathname w) !! 0)).
      rewrite Hparts.
      change (normalizeLang (Some (Js.toLowerCase seg)) = N). unfold N.
      apply bool_decide_eq_true_1, supported_cases in Hlang.
      destruct Hlang as [H | [H | [H | H]]]; rewrite H; reflexivity. }
    exists (persisted N (marked N w)).
    split; [rewrite markByUrl_run, HN; reflexivity|].
    split; [rewrite persisted_trace; reflexivity|].
    rewrite persisted_flags. apply marked_active.
Qed.

Lemma language_folder_agreement_witness :
  atRoot aliasPage = false
  /\ pathParts (pathname aliasPage) = ["UA"; "docs"; "a.html"]
  /\ pagePathOf (pathname aliasPage) = "docs/a.html"
  /\ exists w',
       markByUrl aliasPage = Normal tt w'
       /\ trace w' = [EvSetItem "site_lang" "uk"].
Proof.
  split; [reflexivity|]. split; [reflexivity|].
  destruct (proj2 (language_folder_agreement aliasPage) eq_refl
              "UA" ["docs"; "a.html"] eq_refl eq_refl)
    as (Hpage & w' & Hrun & Htr & _).
  split; [rewrite Hpage; reflexivity|].
  exists w'. split; [exact Hrun|]. rewrite Htr. reflexivity.
Defined.

(** ** The initial language *)

(** X18: when the stored preference can be read, the initial language
    is a canonical code and reading is the only effect. A stored value
    that normalizes to en or uk is that language, whatever the browser
    reports; a stored value that is absent, unrecognized or the default
    language leaves the choice to [pickLangFromNavigator]. *)
Theorem initialLang_resolution (w : World) :
  getItem_throws (localStorage w) = false ->
  exists L,
    initialLang w = Normal L (log (EvGetItem STORAGE_KEY) w)
    /\ L ∈ CANONICAL
    /\ (normalizeLang (stored w) <> DEFAULT_LANG ->
        L = normalizeLang (stored w))
    /\ (normalizeLang (stored w) = DEFAULT_LANG ->
        pickLangFromNavigator w = Normal L w).
Proof.
  intros Hget. exists (effectiveLang w).
  split; [now apply initialLang_run|].
  assert (Hs : normalizeLang (Some (Js.or_else (stored w) EmptyString))
               = normalizeLang (stored w))
    by (destruct (stored w) as [[|c s]|]; reflexivity).
  split.
  { unfold effectiveLang. destruct (String.eqb _ DEFAULT_LANG);
      apply normalizeLang_in_canonical. }
  split.
  - intros Hne. rewrite <- Hs in *. now apply effectiveLang_stored.
  - intros He. rewrite <- Hs in He.
    rewrite (effectiveLang_browser w He). apply pickLangFromNavigator_run.
Qed.

Lemma initialLang_resolution_witness :
  normalizeLang (stored aliasPage) <> DEFAULT_LANG
  /\ exists w', initialLang aliasPage = Normal "en" w'.
Proof.
  assert (Hne : normalizeLang (stored aliasPage) <> DEFAULT_LANG)
    by discriminate.
  split; [exact Hne|].
  destruct (initialLang_resolution aliasPage eq_refl)
    as (L & Hrun & _ & Hstored & _).
  eexists. rewrite Hrun, (Hstored Hne). reflexivity.
Defined.
